(** * Smart Bookmark: the client-side reconciliation layer

    A shallow embedding of [src/components/BookmarkManager.tsx] (the
    Reconciliation Controller), [src/app/dashboard/page.tsx] (the Snapshot
    Loader) and [src/middleware.ts] (the route gate), followed by the
    properties of the list, the highlight markers, the mid-deletion marker,
    the connectivity status, the subscription and the gate.

    Conventions of the embedding:
    - a JS string is a [string], read as its sequence of code units, for
      the strings whose code units are below 256; [===] on strings is
      [String.eqb];
    - the [Set<string>] of highlighted identifiers is a [gset string];
    - a value of type [T | null] is an [option T]; a JS condition [if (x)] on
      such a value (an object, an array, a non-empty message) is [Some];
    - the hooks of the component are the fields of one record [State]; a
      setter [setX] is the function that replaces the field, and successive
      setter calls of one handler are applied in program order;
    - [setTimeout] appends to a queue of pending timers kept beside the hooks,
      with a clock in milliseconds; a timer runs as soon as it is due, before
      any handler called at that instant or later;
    - an [async] function is cut at each [await] into the part that runs
      before it and the parts that resume with the awaited response. *)

From Stdlib Require Import NArith.
From stdpp Require Import gmap strings list sorting.
From stdpp Require Import pretty.

Local Open Scope string_scope.
Local Open Scope N_scope.

(** ** Data model *)

(** [type Bookmark = { id; url; title; created_at }] *)
Record Bookmark := {
  id : string;
  url : string;
  title : string;
  created_at : string;
}.

(** [Bookmark & { user_id: string }]: a row as the change notifications and
    the store carry it. *)
Record Row := {
  fields : Bookmark;
  user_id : string;
}.

(** The part of supabase's [User] that the code reads: [user.id]. *)
Record User := {
  uid : string;
}.

(** The union ["connecting" | "connected" | "error"] of [realtimeStatus]. *)
Module RealtimeStatus.
Inductive t := connecting | connected | error.
End RealtimeStatus.

(** The status argument of the [subscribe] callback (supabase-js
    [REALTIME_SUBSCRIBE_STATES]). *)
Module SubscribeStatus.
Inductive t := SUBSCRIBED | TIMED_OUT | CLOSED | CHANNEL_ERROR.
End SubscribeStatus.

(** A pending [setTimeout] callback of [addToList]: when it is due and the
    identifier its closure deletes from [newIds]. *)
Record Timer := {
  due : N;
  target : string;
}.

(** The hooks of [BookmarkManager] ([urlInput] and [titleInput] are the hooks
    [url] and [title]), the timer queue and the clock. *)
Record State := {
  bookmarks : list Bookmark;
  urlInput : string;
  titleInput : string;
  loading : bool;
  deleting : option string;
  error : option string;
  newIds : gset string;
  realtimeStatus : RealtimeStatus.t;
  timers : list Timer;
  now : N;
}.

Global Instance Bookmark_eq_dec : EqDecision Bookmark.
Proof. solve_decision. Defined.

Global Instance Timer_eq_dec : EqDecision Timer.
Proof. solve_decision. Defined.

(** ** Setters *)

Definition setBookmarks (f : list Bookmark → list Bookmark) (s : State) : State :=
  {| bookmarks := f (bookmarks s); urlInput := urlInput s;
     titleInput := titleInput s; loading := loading s;
     deleting := deleting s; error := error s; newIds := newIds s;
     realtimeStatus := realtimeStatus s; timers := timers s; now := now s |}.

Definition setUrl (v : string) (s : State) : State :=
  {| bookmarks := bookmarks s; urlInput := v;
     titleInput := titleInput s; loading := loading s;
     deleting := deleting s; error := error s; newIds := newIds s;
     realtimeStatus := realtimeStatus s; timers := timers s; now := now s |}.

Definition setTitle (v : string) (s : State) : State :=
  {| bookmarks := bookmarks s; urlInput := urlInput s;
     titleInput := v; loading := loading s;
     deleting := deleting s; error := error s; newIds := newIds s;
     realtimeStatus := realtimeStatus s; timers := timers s; now := now s |}.

Definition setLoading (v : bool) (s : State) : State :=
  {| bookmarks := bookmarks s; urlInput := urlInput s;
     titleInput := titleInput s; loading := v;
     deleting := deleting s; error := error s; newIds := newIds s;
     realtimeStatus := realtimeStatus s; timers := timers s; now := now s |}.

Definition setDeleting (v : option string) (s : State) : State :=
  {| bookmarks := bookmarks s; urlInput := urlInput s;
     titleInput := titleInput s; loading := loading s;
     deleting := v; error := error s; newIds := newIds s;
     realtimeStatus := realtimeStatus s; timers := timers s; now := now s |}.

Definition setError (v : option string) (s : State) : State :=
  {| bookmarks := bookmarks s; urlInput := urlInput s;
     titleInput := titleInput s; loading := loading s;
     deleting := deleting s; error := v; newIds := newIds s;
     realtimeStatus := realtimeStatus s; timers := timers s; now := now s |}.

Definition setNewIds (f : gset string → gset string) (s : State) : State :=
  {| bookmarks := bookmarks s; urlInput := urlInput s;
     titleInput := titleInput s; loading := loading s;
     deleting := deleting s; error := error s; newIds := f (newIds s);
     realtimeStatus := realtimeStatus s; timers := timers s; now := now s |}.

Definition setRealtimeStatus (v : RealtimeStatus.t) (s : State) : State :=
  {| bookmarks := bookmarks s; urlInput := urlInput s;
     titleInput := titleInput s; loading := loading s;
     deleting := deleting s; error := error s; newIds := newIds s;
     realtimeStatus := v; timers := timers s; now := now s |}.

(** [setTimeout(callback, delay)] where the callback deletes [i] from
    [newIds]: the timer is queued behind the pending ones. *)
Definition setTimeout (i : string) (delay : N) (s : State) : State :=
  {| bookmarks := bookmarks s; urlInput := urlInput s;
     titleInput := titleInput s; loading := loading s;
     deleting := deleting s; error := error s; newIds := newIds s;
     realtimeStatus := realtimeStatus s;
     timers := timers s ++ [ {| due := now s + delay; target := i |} ];
     now := now s |}.

(** ** Optimistic helpers *)

(** [prev.some((b) => b.id === bookmark.id)] *)
Definition some_id (i : string) (prev : list Bookmark) : bool :=
  existsb (λ b, String.eqb (id b) i) prev.

(** The updater of [setBookmarks] in [addToList]. *)
Definition prepend_unless_present (bookmark : Bookmark) (prev : list Bookmark)
  : list Bookmark :=
  if some_id (id bookmark) prev then prev else bookmark :: prev.

(** The callback of the timer: [next = new Set(prev); next.delete(id)]. *)
Definition clearHighlight (i : string) (s : State) : State :=
  setNewIds (λ prev, prev ∖ {[ i ]}) s.

(** The length of the green flash, in milliseconds. *)
Definition HIGHLIGHT_MS : N := 2000.

Definition addToList (bookmark : Bookmark) (s : State) : State :=
  let s1 := setBookmarks (prepend_unless_present bookmark) s in
  let s2 := setNewIds (λ prev, prev ∪ {[ id bookmark ]}) s1 in
  setTimeout (id bookmark) HIGHLIGHT_MS s2.

(** [prev.filter((b) => b.id !== id)] *)
Definition removeFromList (i : string) (s : State) : State :=
  setBookmarks (filter (λ b, id b ≠ i)) s.

(** ** Timers *)

Definition setHost (pending : list Timer) (clock : N) (s : State) : State :=
  {| bookmarks := bookmarks s; urlInput := urlInput s;
     titleInput := titleInput s; loading := loading s;
     deleting := deleting s; error := error s; newIds := newIds s;
     realtimeStatus := realtimeStatus s; timers := pending; now := clock |}.

(** Run the callbacks of the timers [ready], oldest first. *)
Definition fire (ready : list Timer) (s : State) : State :=
  foldl (λ acc t, clearHighlight (target t) acc) s ready.

(** [ms] milliseconds pass: the timers that are due by then run, in the
    order they were set, and leave the queue. *)
Definition elapse (ms : N) (s : State) : State :=
  let clock := now s + ms in
  let ready := filter (λ t, due t ≤ clock) (timers s) in
  let pending := filter (λ t, clock < due t) (timers s) in
  fire ready (setHost pending clock s).

(** ** [String.prototype.trim]

    White space and line terminators among the code units below 256: TAB,
    LF, VT, FF, CR, SP and NBSP. *)

Definition isWhiteSpace (c : Ascii.ascii) : bool :=
  let n := Ascii.N_of_ascii c in
  ((9 <=? n) && (n <=? 13)) || (n =? 32) || (n =? 160).

Fixpoint trimStart (s : string) : string :=
  match s with
  | EmptyString => EmptyString
  | String c rest => if isWhiteSpace c then trimStart rest else s
  end.

Fixpoint trimEnd (s : string) : string :=
  match s with
  | EmptyString => EmptyString
  | String c rest =>
      match trimEnd rest with
      | EmptyString => if isWhiteSpace c then EmptyString else String c EmptyString
      | kept => String c kept
      end
  end.

Definition trim (s : string) : string := trimEnd (trimStart s).

(** [!s] on a string: the empty string is the only falsy one. *)
Definition falsy (s : string) : bool :=
  match s with EmptyString => true | String _ _ => false end.

(** ** Requests and responses of the Record Store client *)

(** The [{ data, error }] pair every query resolves to. *)
Record Response (A : Type) := {
  data : option A;
  failure : option string;
}.
Arguments data {A} _.
Arguments failure {A} _.

(** [.insert({ url, title, user_id }).select().single()] *)
Record InsertRequest := {
  insert_url : string;
  insert_title : string;
  insert_user_id : string;
}.

(** [.delete().eq("id", id).eq("user_id", user.id)] *)
Record DeleteRequest := {
  eq_id : string;
  eq_user_id : string;
}.

(** [addBookmark] either returns before its [await] or is suspended on the
    insert request. *)
Inductive AddOutcome :=
| AddReturned (s : State)
| AddAwaiting (request : InsertRequest) (s : State).

(** [deleteBookmark], resumed with the answer to the delete request, either
    returns or is suspended on the rollback query. *)
Inductive DeleteOutcome :=
| DeleteReturned (s : State)
| DeleteAwaitingRefetch (s : State).

(** ** Snapshot Loader: [DashboardContent] *)

Inductive Page :=
| Redirected (path : string)
| Rendered (initialBookmarks : list Bookmark) (user : User).

(** [getUser] is the answer of [supabase.auth.getUser()]; [select] is the
    answer of the store to
    [from("bookmarks").select("*").order("created_at", { ascending: false })]
    issued with that user's session. [redirect] does not return. *)
Definition DashboardContent (getUser : option User)
    (select : User → Response (list Bookmark)) : Page :=
  match getUser with
  | None => Redirected "/"
  | Some user =>
      let bookmarks := data (select user) in
      Rendered (default [] bookmarks) user
  end.

(** Modelled from the spec: the external Record Store, which is not code of
    this repository. It "persists bookmark records, enforces per-owner row
    visibility" and answers "select all bookmark rows owned by current
    identity, descending by creation time"; a query that fails softly
    resolves to no data and an error. [instant] reads a stored creation
    timestamp as a point in time. *)
Section RecordStore.
Variable instant : string → N.

Definition newer_first (b1 b2 : Bookmark) : Prop :=
  instant (created_at b2) ≤ instant (created_at b1).

Global Instance newer_first_dec : RelDecision newer_first.
Proof. intros b1 b2. unfold newer_first. apply _. Defined.

Definition owned_by (owner : string) (table : list Row) : list Bookmark :=
  fields <$> filter (λ r, user_id r = owner) table.

Definition recordStore_select (available : bool) (table : list Row)
    (session : User) : Response (list Bookmark) :=
  if available
  then {| data := Some (merge_sort newer_first (owned_by (uid session) table));
          failure := None |}
  else {| data := None; failure := Some "query failed" |}.
End RecordStore.

Global Instance newer_first_total (instant : string → N) :
  Total (newer_first instant).
Proof. intros b1 b2. unfold newer_first. lia. Qed.

Global Instance newer_first_trans (instant : string → N) :
  Transitive (newer_first instant).
Proof. intros b1 b2 b3. unfold newer_first. lia. Qed.

(** ** Reconciliation Controller: [BookmarkManager] *)

(** The state of a freshly mounted component: the initial values of the
    hooks, no timer, the clock at the mount instant. *)
Definition mount (initialBookmarks : list Bookmark) : State :=
  {| bookmarks := initialBookmarks; urlInput := ""; titleInput := "";
     loading := false; deleting := None; error := None; newIds := ∅;
     realtimeStatus := RealtimeStatus.connecting; timers := []; now := 0 |}.

(** The callback given to [subscribe]. *)
Definition subscribeCallback (status : SubscribeStatus.t) (s : State) : State :=
  match status with
  | SubscribeStatus.SUBSCRIBED =>
      setRealtimeStatus RealtimeStatus.connected s
  | SubscribeStatus.CHANNEL_ERROR | SubscribeStatus.TIMED_OUT =>
      setRealtimeStatus RealtimeStatus.error s
  | _ => setRealtimeStatus RealtimeStatus.connecting s
  end.

(** [isNew] and [isDeleting] of a rendered row. *)
Definition isNew (s : State) (b : Bookmark) : bool :=
  bool_decide (id b ∈ newIds s).

Definition isDeleting (s : State) (b : Bookmark) : bool :=
  bool_decide (deleting s = Some (id b)).

Section BookmarkManager.
(** The [user] prop, and the one platform function the component relies
    on: [parsesAsURL u] holds when [new URL(u)] does not throw. *)
Variable user : User.
Variable parsesAsURL : string → bool.

(** The handler of the INSERT notifications; [incoming] is [payload.new]. *)
Definition onInsert (incoming : Row) (s : State) : State :=
  if negb (String.eqb (user_id incoming) (uid user)) then s
  else addToList (fields incoming) s.

(** The handler of the DELETE notifications; [deleted] is [payload.old]. *)
Definition onDelete (deleted : Row) (s : State) : State :=
  removeFromList (id (fields deleted)) s.

(** [addBookmark] up to its [await]. *)
Definition addBookmark_begin (s : State) : AddOutcome :=
  let trimUrl := trim (urlInput s) in
  let trimTitle := trim (titleInput s) in
  if falsy trimUrl || falsy trimTitle then
    AddReturned (setError (Some "Both title and URL are required.") s)
  else if negb (parsesAsURL trimUrl) then
    AddReturned
      (setError (Some "Please enter a valid URL — e.g. https://example.com") s)
  else
    AddAwaiting
      {| insert_url := trimUrl; insert_title := trimTitle;
         insert_user_id := uid user |}
      (setLoading true (setError None s)).

(** [addBookmark] from the answer to the insert request to its end. *)
Definition addBookmark_resume (response : Response Bookmark) (s : State)
  : State :=
  let s1 :=
    match failure response with
    | Some _ => setError (Some "Failed to add bookmark. Please try again.") s
    | None =>
        match data response with
        | Some row => setTitle "" (setUrl "" (addToList row s))
        | None => s
        end
    end in
  setLoading false s1.

(** [deleteBookmark] up to its first [await]. *)
Definition deleteBookmark_begin (i : string) (s : State)
  : DeleteRequest * State :=
  ({| eq_id := i; eq_user_id := uid user |},
   setDeleting (Some i) (removeFromList i s)).

(** [deleteBookmark] resumed with [deleteError]. *)
Definition deleteBookmark_afterDelete (deleteError : option string)
    (s : State) : DeleteOutcome :=
  match deleteError with
  | Some _ => DeleteAwaitingRefetch s
  | None => DeleteReturned (setDeleting None s)
  end.

(** [deleteBookmark] resumed with the answer to the rollback query. *)
Definition deleteBookmark_afterRefetch (refetch : Response (list Bookmark))
    (s : State) : State :=
  let s1 :=
    match data refetch with
    | Some rows => setBookmarks (λ _, rows) s
    | None => s
    end in
  setDeleting None s1.

(** A whole call of [deleteBookmark]. [during1] and [during2] are what the
    other handlers of the event loop do to the state while the call is
    suspended on the delete request and on the rollback query. *)
Definition deleteBookmark (i : string) (deleteError : option string)
    (refetch : Response (list Bookmark)) (during1 during2 : State → State)
    (s : State) : State :=
  let s1 := snd (deleteBookmark_begin i s) in
  match deleteBookmark_afterDelete deleteError (during1 s1) with
  | DeleteReturned s2 => s2
  | DeleteAwaitingRefetch s2 => deleteBookmark_afterRefetch refetch (during2 s2)
  end.

(** The events through which the list is reconciled. *)
Inductive Event :=
| OptimisticAdd (row : Bookmark)
| InsertNotification (incoming : Row)
| DeleteNotification (deleted : Row)
| UserDelete (i : string)
| TimePasses (ms : N).

Definition handle (e : Event) (s : State) : State :=
  match e with
  | OptimisticAdd row =>
      addBookmark_resume {| data := Some row; failure := None |} s
  | InsertNotification incoming => onInsert incoming s
  | DeleteNotification deleted => onDelete deleted s
  | UserDelete i => snd (deleteBookmark_begin i s)
  | TimePasses ms => elapse ms s
  end.

Definition handleAll (es : list Event) (s : State) : State :=
  foldl (λ acc e, handle e acc) s es.
End BookmarkManager.

(** The calls that touch the list or the markers, and the passing of time. *)
Inductive Op :=
| Op_addToList (bookmark : Bookmark)
| Op_removeFromList (i : string)
| Op_setBookmarks (rows : list Bookmark)
| Op_elapse (ms : N).

Definition perform (o : Op) (s : State) : State :=
  match o with
  | Op_addToList bookmark => addToList bookmark s
  | Op_removeFromList i => removeFromList i s
  | Op_setBookmarks rows => setBookmarks (λ _, rows) s
  | Op_elapse ms => elapse ms s
  end.

Definition performAll (os : list Op) (s : State) : State :=
  foldl (λ acc o, perform o acc) s os.

(** The time that passes during [os]. *)
Definition elapsed (os : list Op) : N :=
  foldr (λ o acc, match o with Op_elapse ms => ms + acc | _ => acc end) 0 os.

(** [o] is a call of [addToList] for the identifier [i]. *)
Definition adds (i : string) (o : Op) : Prop :=
  match o with Op_addToList bookmark => id bookmark = i | _ => False end.

(** The identifiers of a list, in order. *)
Definition ids (l : list Bookmark) : list string := id <$> l.

(** The connectivity state machine as the specification words it. *)
Definition spec_transition (from to : RealtimeStatus.t) : bool :=
  match from, to with
  | RealtimeStatus.connecting, RealtimeStatus.connected => true
  | RealtimeStatus.connecting, RealtimeStatus.error => true
  | RealtimeStatus.connected, RealtimeStatus.error => true
  | RealtimeStatus.error, RealtimeStatus.connecting => true
  | RealtimeStatus.connected, RealtimeStatus.connecting => true
  | _, _ => false
  end.

(** Every highlighted identifier has a pending timer that will clear it,
    and every pending timer is due within the next [HIGHLIGHT_MS]. *)
Definition highlights_scheduled (s : State) : Prop :=
  (∀ x, x ∈ newIds s → ∃ t, t ∈ timers s ∧ target t = x) ∧
  (∀ t, t ∈ timers s → now s < due t ∧ due t ≤ now s + HIGHLIGHT_MS).

(** ** Presentation: what the controls read from the state *)

(** [disabled={loading}] of the two inputs and of the add button. *)
Definition addDisabled (s : State) : bool := loading s.

(** [disabled={!!deleting}] of every delete button. *)
Definition deleteDisabled (s : State) : bool :=
  match deleting s with
  | Some i => negb (falsy i)
  | None => false
  end.

(** [handleKeyDown]: [if (e.key === "Enter") addBookmark()]; any other key
    leaves the call of [addBookmark] out. *)
Definition handleKeyDown (user : User) (parsesAsURL : string → bool)
    (key : string) (s : State) : AddOutcome :=
  if String.eqb key "Enter" then addBookmark_begin user parsesAsURL s
  else AddReturned s.

(** ** The subscription: the effect of [BookmarkManager] and [signOut] *)

(** Modelled from the spec: the registry of subscriptions of the external
    store client, which is not code of this repository. A subscription is
    "established" by [channel(name)...subscribe(callback)] and "torn down" by
    [removeChannel]; [channels] are the live ones, oldest first, and
    [object_id] tells the channel objects apart. *)
Record Channel := {
  object_id : N;
  topic : string;
}.

Record Client := {
  channels : list Channel;
  created : N;
}.

Definition createClient : Client := {| channels := []; created := 0 |}.

Definition channel_subscribe (name : string) (c : Client) : Channel * Client :=
  let channel := {| object_id := created c; topic := name |} in
  (channel, {| channels := channels c ++ [channel]; created := created c + 1 |}).

Definition removeChannel (channel : Channel) (c : Client) : Client :=
  {| channels := filter (λ x, object_id x ≠ object_id channel) (channels c);
     created := created c |}.

(** [supabaseRef.current] and [channelRef.current]. *)
Record Refs := {
  supabase : Client;
  channelRef : option Channel;
}.

(** The name given to the channel: [`bookmarks:${user.id}:${Date.now()}`]. *)
Definition channelName (user : User) (dateNow : N) : string :=
  "bookmarks:" +:+ uid user +:+ ":" +:+ pretty dateNow.

(** The body of the effect, run at the instant [dateNow]; the channel it
    returns is the one its cleanup function holds. *)
Definition subscriptionEffect (user : User) (dateNow : N) (r : Refs)
  : Channel * Refs :=
  let c1 :=
    match channelRef r with
    | Some previous => removeChannel previous (supabase r)
    | None => supabase r
    end in
  let '(channel, c2) := channel_subscribe (channelName user dateNow) c1 in
  (channel, {| supabase := c2; channelRef := Some channel |}).

(** The cleanup function returned by the effect that created [channel]. *)
Definition subscriptionCleanup (channel : Channel) (r : Refs) : Refs :=
  {| supabase := removeChannel channel (supabase r);
     channelRef := channelRef r |}.

(** [signOut]: the channel of [channelRef] is removed, the session is ended
    by the identity service, and the window goes to ["/"]; the result is
    the references and [window.location.href]. *)
Definition signOut (r : Refs) : Refs * string :=
  let r1 :=
    match channelRef r with
    | Some channel =>
        {| supabase := removeChannel channel (supabase r);
           channelRef := channelRef r |}
    | None => r
    end in
  (r1, "/").

(** What happens to the subscription of a mounted component: the effect
    runs, or a cleanup function of an earlier run is called. *)
Inductive Lifecycle :=
| EffectRuns (dateNow : N)
| CleanupRuns (channel : Channel).

Definition lifecycle (user : User) (e : Lifecycle) (r : Refs) : Refs :=
  match e with
  | EffectRuns dateNow => snd (subscriptionEffect user dateNow r)
  | CleanupRuns channel => subscriptionCleanup channel r
  end.

Definition lifecycleAll (user : User) (es : list Lifecycle) (r : Refs) : Refs :=
  foldl (λ acc e, lifecycle user e acc) r es.

(** ** Route gating: [middleware] *)

(** An element of [cookiesToSet]. *)
Record CookieToSet := {
  name : string;
  value : string;
  options : string;
}.

(** The parts of [NextRequest] the middleware reads and writes:
    [request.nextUrl.pathname] and [request.cookies]. *)
Record NextRequest := {
  pathname : string;
  cookies : gmap string string;
}.

(** A [NextResponse]: [NextResponse.next] or [NextResponse.redirect] to a
    path of the request's origin, with the cookies set on it. *)
Inductive ResponseKind :=
| Next
| Redirect (path : string).

Record NextResponse := {
  kind : ResponseKind;
  responseCookies : gmap string (string * string);
}.

(** [setAll(cookiesToSet)]: each cookie is set on the request and on
    [supabaseResponse], in order. *)
Definition setAll (cookiesToSet : list CookieToSet)
    (st : NextRequest * NextResponse) : NextRequest * NextResponse :=
  foldl
    (λ acc c,
       ({| pathname := pathname (fst acc);
           cookies := <[name c := value c]> (cookies (fst acc)) |},
        {| kind := kind (snd acc);
           responseCookies :=
             <[name c := (value c, options c)]> (responseCookies (snd acc)) |}))
    st cookiesToSet.

(** [middleware(request)]. [refreshes] are the calls of [setAll] that
    [supabase.auth.getUser()] makes while it refreshes the session, and
    [user] is the user it resolves to. The result is the request as the
    middleware leaves it and the response it returns. *)
Definition middleware (request : NextRequest)
    (refreshes : list (list CookieToSet)) (user : option User)
  : NextRequest * NextResponse :=
  let supabaseResponse := {| kind := Next; responseCookies := ∅ |} in
  let st :=
    foldl (λ acc cookiesToSet, setAll cookiesToSet acc)
      (request, supabaseResponse) refreshes in
  match user with
  | None =>
      if String.prefix "/dashboard" (pathname (fst st))
      then (fst st, {| kind := Redirect "/"; responseCookies := ∅ |})
      else st
  | Some _ => st
  end.

(** ** Sample data: the records of the specification's examples *)

Definition a1 : Bookmark :=
  {| id := "a1"; url := "https://news.ycombinator.com"; title := "HN";
     created_at := "2024-05-02T10:00:00+00:00" |}.

Definition a2 : Bookmark :=
  {| id := "a2"; url := "https://example.com"; title := "Example";
     created_at := "2024-05-01T10:00:00+00:00" |}.

(** A payload with the identifier of [a1] and other fields. *)
Definition a1_other_fields : Bookmark :=
  {| id := "a1"; url := "https://example.org"; title := "Hacker News";
     created_at := "2024-05-03T10:00:00+00:00" |}.

Definition me : User := {| uid := "u1" |}.

Definition mine (b : Bookmark) : Row := {| fields := b; user_id := "u1" |}.

Definition theirs (b : Bookmark) : Row := {| fields := b; user_id := "u2" |}.

(** A reading of timestamps for the examples: the decimal digits of the
    text, in order, as one number. *)
Definition digit (c : Ascii.ascii) : option N :=
  let n := Ascii.N_of_ascii c in
  if (48 <=? n) && (n <=? 57) then Some (n - 48) else None.

Fixpoint digits_from (acc : N) (s : string) : N :=
  match s with
  | EmptyString => acc
  | String c rest =>
      match digit c with
      | Some d => digits_from (10 * acc + d) rest
      | None => digits_from acc rest
      end
  end.

Definition sample_instant (s : string) : N := digits_from 0 s.

(** A store holding [a2] and [a1] of the user [me] and a row of another
    user. *)
Definition sample_table : list Row :=
  [mine a2; theirs a1_other_fields; mine a1].

(** * Properties *)

(** ** The list operations *)

Lemma some_id_spec (i : string) (l : list Bookmark) :
  some_id i l = true ↔ i ∈ ids l.
Proof.
  unfold some_id, ids. induction l as [|b l IH]; simpl.
  - split; [discriminate | intros H; inversion H].
  - rewrite orb_true_iff, IH, elem_of_cons, String.eqb_eq.
    split; intros [H|H]; auto.
Qed.

Lemma some_id_false (i : string) (l : list Bookmark) :
  some_id i l = false ↔ i ∉ ids l.
Proof.
  rewrite <- some_id_spec. destruct (some_id i l); split; congruence.
Qed.

Lemma prepend_unless_present_NoDup (bookmark : Bookmark) (l : list Bookmark) :
  NoDup (ids l) → NoDup (ids (prepend_unless_present bookmark l)).
Proof.
  intros Hl. unfold prepend_unless_present.
  destruct (some_id (id bookmark) l) eqn:E; [exact Hl|].
  apply some_id_false in E. unfold ids in *. rewrite fmap_cons.
  apply NoDup_cons; split; assumption.
Qed.

Lemma filter_ids_NoDup (P : Bookmark → Prop) `{∀ b, Decision (P b)}
    (l : list Bookmark) :
  NoDup (ids l) → NoDup (ids (filter P l)).
Proof.
  unfold ids. intros Hl. eapply sublist_NoDup; [exact Hl|].
  apply fmap_sublist, sublist_filter.
Qed.

Lemma addToList_NoDup (bookmark : Bookmark) (s : State) :
  NoDup (ids (bookmarks s)) → NoDup (ids (bookmarks (addToList bookmark s))).
Proof. apply prepend_unless_present_NoDup. Qed.

Lemma removeFromList_NoDup (i : string) (s : State) :
  NoDup (ids (bookmarks s)) → NoDup (ids (bookmarks (removeFromList i s))).
Proof. apply filter_ids_NoDup. Qed.

Lemma addToList_present (bookmark : Bookmark) (s : State) :
  id bookmark ∈ ids (bookmarks s) →
  bookmarks (addToList bookmark s) = bookmarks s.
Proof.
  intros Hin. simpl. unfold prepend_unless_present.
  apply some_id_spec in Hin. by rewrite Hin.
Qed.

Lemma addToList_absent (bookmark : Bookmark) (s : State) :
  id bookmark ∉ ids (bookmarks s) →
  bookmarks (addToList bookmark s) = bookmark :: bookmarks s.
Proof.
  intros Hin. simpl. unfold prepend_unless_present.
  apply some_id_false in Hin. by rewrite Hin.
Qed.

Lemma fire_bookmarks (ready : list Timer) (s : State) :
  bookmarks (fire ready s) = bookmarks s.
Proof.
  unfold fire. revert s. induction ready as [|t ready IH]; intros s; simpl.
  - reflexivity.
  - by rewrite IH.
Qed.

Lemma elapse_bookmarks (ms : N) (s : State) :
  bookmarks (elapse ms s) = bookmarks s.
Proof. unfold elapse. by rewrite fire_bookmarks. Qed.

Lemma handle_NoDup (user : User) (e : Event) (s : State) :
  NoDup (ids (bookmarks s)) → NoDup (ids (bookmarks (handle user e s))).
Proof.
  intros Hs. destruct e as [row|incoming|deleted|i|ms]; simpl handle.
  - by apply (addToList_NoDup row).
  - unfold onInsert. destruct (negb _); [exact Hs|].
    by apply addToList_NoDup.
  - by apply removeFromList_NoDup.
  - by apply (removeFromList_NoDup i).
  - by rewrite elapse_bookmarks.
Qed.

Lemma handleAll_NoDup (user : User) (es : list Event) (s : State) :
  NoDup (ids (bookmarks s)) → NoDup (ids (bookmarks (handleAll user es s))).
Proof.
  unfold handleAll. revert s.
  induction es as [|e es IH]; intros s Hs; simpl.
  - exact Hs.
  - apply IH, handle_NoDup, Hs.
Qed.

(** C1. Starting from a list without two records of the same identifier,
    after any sequence of optimistic adds, insert notifications, delete
    notifications, user deletes and timer expiries (each reaching the list
    through [addToList] or [removeFromList] only) the list still has no two
    records with the same identifier; and a further [addToList] of a record
    whose identifier is in the list leaves the list as it is. *)
Theorem reconciliation_keeps_identifiers_unique
    (user : User) (es : list Event) (s : State) :
  NoDup (ids (bookmarks s)) →
  let s' := handleAll user es s in
  NoDup (ids (bookmarks s')) ∧
  ∀ bookmark, id bookmark ∈ ids (bookmarks s') →
    bookmarks (addToList bookmark s') = bookmarks s' ∧
    NoDup (ids (bookmarks (addToList bookmark s'))).
Proof.
  intros Hs s'. assert (Hs' : NoDup (ids (bookmarks s'))).
  { by apply handleAll_NoDup. }
  split; [exact Hs'|]. intros bookmark Hin.
  rewrite (addToList_present bookmark s' Hin). by split.
Qed.

Lemma same_id_same_record (l : list Bookmark) (b1 b2 : Bookmark) :
  NoDup (ids l) → b1 ∈ l → b2 ∈ l → id b1 = id b2 → b1 = b2.
Proof.
  unfold ids. induction l as [|b l IH]; intros Hnd H1 H2 Hid.
  - inversion H1.
  - rewrite fmap_cons in Hnd. apply NoDup_cons in Hnd as [Hb Hnd].
    apply elem_of_cons in H1 as [->|H1]; apply elem_of_cons in H2 as [->|H2].
    + reflexivity.
    + exfalso. apply Hb. rewrite Hid. by apply list_elem_of_fmap_2.
    + exfalso. apply Hb. rewrite <- Hid. by apply list_elem_of_fmap_2.
    + by apply IH.
Qed.

(** C9. When the list holds a record [stored] and [addToList] is called with
    a record of the same identifier, whatever its other fields, the whole
    list is unchanged: [stored] is still in it with its own fields, and the
    incoming record, when it differs from [stored], is not in it. *)
Theorem addToList_keeps_the_stored_record
    (s : State) (stored bookmark : Bookmark) :
  stored ∈ bookmarks s →
  id bookmark = id stored →
  bookmarks (addToList bookmark s) = bookmarks s ∧
  stored ∈ bookmarks (addToList bookmark s) ∧
  (NoDup (ids (bookmarks s)) → bookmark ≠ stored →
   bookmark ∉ bookmarks (addToList bookmark s)).
Proof.
  intros Hin Hid.
  assert (Heq : bookmarks (addToList bookmark s) = bookmarks s).
  { apply addToList_present. rewrite Hid. unfold ids.
    by apply list_elem_of_fmap_2. }
  rewrite Heq. split; [reflexivity|]. split; [exact Hin|].
  intros Hnd Hne Hb. apply Hne.
  by apply (same_id_same_record (bookmarks s)).
Qed.

Lemma reconciliation_keeps_identifiers_unique_witness :
  NoDup (ids (bookmarks (mount [a1; a2]))) ∧
  let s' :=
    handleAll me
      [UserDelete "a1"; OptimisticAdd a1; InsertNotification (mine a1);
       TimePasses 2000; DeleteNotification (mine a2)]
      (mount [a1; a2]) in
  NoDup (ids (bookmarks s')) ∧
  ∀ bookmark, id bookmark ∈ ids (bookmarks s') →
    bookmarks (addToList bookmark s') = bookmarks s' ∧
    NoDup (ids (bookmarks (addToList bookmark s'))).
Proof.
  assert (H : NoDup (ids (bookmarks (mount [a1; a2])))).
  { apply (bool_decide_unpack _). vm_compute. exact I. }
  split; [exact H|].
  exact (reconciliation_keeps_identifiers_unique me _ (mount [a1; a2]) H).
Defined.

Lemma addToList_keeps_the_stored_record_witness :
  a1 ∈ bookmarks (mount [a1; a2]) ∧ id a1_other_fields = id a1 ∧
  bookmarks (addToList a1_other_fields (mount [a1; a2])) = [a1; a2].
Proof.
  assert (Hin : a1 ∈ bookmarks (mount [a1; a2])) by apply list_elem_of_here.
  assert (Hid : id a1_other_fields = id a1) by reflexivity.
  split; [exact Hin|]. split; [exact Hid|].
  exact (proj1 (addToList_keeps_the_stored_record
                  (mount [a1; a2]) a1 a1_other_fields Hin Hid)).
Defined.

(** ** Notification filtering *)

(** C2. An insert notification whose [user_id] is not the identifier of the
    session's user leaves the whole state as it is: the list, the highlight
    markers and the pending timers. *)
Theorem onInsert_discards_foreign_rows
    (user : User) (incoming : Row) (s : State) :
  user_id incoming ≠ uid user →
  onInsert user incoming s = s.
Proof.
  intros Hne. unfold onInsert.
  destruct (String.eqb_spec (user_id incoming) (uid user)) as [Heq|_].
  - contradiction.
  - reflexivity.
Qed.

Lemma onInsert_discards_foreign_rows_witness :
  user_id (theirs a2) ≠ uid me ∧
  onInsert me (theirs a2) (mount [a1]) = mount [a1].
Proof.
  assert (Hne : user_id (theirs a2) ≠ uid me) by discriminate.
  split; [exact Hne|].
  exact (onInsert_discards_foreign_rows me (theirs a2) (mount [a1]) Hne).
Defined.

(** ** Delete *)

Lemma not_in_filter_ids (i : string) (l : list Bookmark) :
  i ∉ ids (filter (λ b, id b ≠ i) l).
Proof.
  unfold ids. intros (b & Hb & Hin)%list_elem_of_fmap.
  apply list_elem_of_filter in Hin as [Hne _]. by apply Hne.
Qed.

(** C3, as the code has it. A delete of [i] first filters the records with
    identifier [i] out of the list and issues the delete request for [i] and
    the session's user. When that request fails, the rollback query is
    awaited; if it answers with a record set, the list becomes exactly that
    record set, whatever happened to the list in between; if it answers with
    no data, the list is left as it then is. *)
Theorem deleteBookmark_optimistic_then_resync
    (user : User) (i : string) (s : State) (deleteError : string)
    (refetch : Response (list Bookmark)) (during1 during2 : State → State) :
  let started := deleteBookmark_begin user i s in
  let final :=
    deleteBookmark user i (Some deleteError) refetch during1 during2 s in
  fst started = {| eq_id := i; eq_user_id := uid user |} ∧
  bookmarks (snd started) = filter (λ b, id b ≠ i) (bookmarks s) ∧
  (i ∉ ids (bookmarks (snd started))) ∧
  (match data refetch with
   | Some rows => bookmarks final = rows
   | None => bookmarks final = bookmarks (during2 (during1 (snd started)))
   end).
Proof.
  simpl. split; [reflexivity|]. split; [reflexivity|].
  split; [apply not_in_filter_ids|].
  unfold deleteBookmark, deleteBookmark_afterDelete,
    deleteBookmark_afterRefetch.
  destruct (data refetch); reflexivity.
Qed.

(** C3, the counterexample. The store holds [a1] and [a2] of the user and a
    fetch of it would give [[a1; a2]]; the list is [[a1; a2]]; the delete
    request for [a1] fails and the rollback query fails too. The list ends
    as [[a2]]: it is the optimistic list, neither the record set of the
    owner nor the empty result of the failed query. *)
Lemma deleteBookmark_failed_refetch_leaves_optimistic_list :
  let fetched := recordStore_select sample_instant true sample_table me in
  let refetch := recordStore_select sample_instant false sample_table me in
  let final :=
    deleteBookmark me "a1" (Some "delete failed") refetch
      (λ s, s) (λ s, s) (mount [a1; a2]) in
  data fetched = Some [a1; a2] ∧
  data refetch = None ∧
  bookmarks final = [a2] ∧
  bookmarks final ≠ [a1; a2] ∧
  bookmarks final ≠ default [] (data refetch).
Proof.
  vm_compute. repeat split; try reflexivity; discriminate.
Qed.

Lemma filter_none (P : Bookmark → Prop) `{∀ b, Decision (P b)}
    (l : list Bookmark) :
  (∀ b, b ∈ l → ¬ P b) → filter P l = [].
Proof.
  induction l as [|b l IH]; intros Hall; [reflexivity|].
  rewrite filter_cons. destruct (decide (P b)) as [Hb|Hb].
  - exfalso. apply (Hall b); [apply list_elem_of_here | exact Hb].
  - apply IH. intros b' Hin. apply Hall. by apply list_elem_of_further.
Qed.

Lemma at_most_one_with_id (i : string) (l : list Bookmark) :
  NoDup (ids l) → (length (filter (λ b, id b = i) l) ≤ 1)%nat.
Proof.
  unfold ids. induction l as [|b l IH]; intros Hnd; simpl.
  - lia.
  - rewrite fmap_cons in Hnd. apply NoDup_cons in Hnd as [Hb Hnd].
    rewrite filter_cons. destruct (decide (id b = i)) as [Hi|Hi].
    + assert (Hnil : filter (λ b0, id b0 = i) l = []).
      { apply filter_none. intros b' Hin Heq.
        apply Hb. rewrite Hi, <- Heq. by apply list_elem_of_fmap_2. }
      rewrite Hnil. simpl. lia.
    + by apply IH.
Qed.

Lemma isDeleting_spec (s : State) (b : Bookmark) (i : string) :
  deleting s = Some i → isDeleting s b ↔ id b = i.
Proof.
  intros Hd. unfold isDeleting. rewrite bool_decide_spec, Hd.
  split; [by intros [= ->] | by intros ->].
Qed.

(** C10. A call of [deleteBookmark] for [i] sets the mid-deletion marker to
    [i] before its first [await]; when the call has finished, on the
    success path and on the failure path (whatever the rollback query
    answered, and whatever the other handlers did meanwhile), the marker is
    [null]. Between the two a failed delete request leaves the marker as it
    is while the rollback query is awaited. In a list without two records
    of the same identifier at most one record is flagged as mid-deletion. *)
Theorem deleteBookmark_marker_set_then_reset
    (user : User) (i : string) (s : State) (deleteError : option string)
    (refetch : Response (list Bookmark)) (during1 during2 : State → State) :
  deleting (snd (deleteBookmark_begin user i s)) = Some i ∧
  deleting
    (deleteBookmark user i deleteError refetch during1 during2 s) = None ∧
  (∀ s1, deleteBookmark_afterDelete None s1
         = DeleteReturned (setDeleting None s1)) ∧
  (∀ e s1, deleteBookmark_afterDelete (Some e) s1
           = DeleteAwaitingRefetch s1) ∧
  (∀ s2, deleting (deleteBookmark_afterRefetch refetch s2) = None) ∧
  (∀ s0, NoDup (ids (bookmarks s0)) →
         (length (filter (λ b, isDeleting s0 b) (bookmarks s0)) ≤ 1)%nat).
Proof.
  split; [reflexivity|]. split.
  { unfold deleteBookmark, deleteBookmark_afterDelete.
    destruct deleteError; reflexivity. }
  split; [reflexivity|]. split; [reflexivity|]. split; [reflexivity|].
  intros s0 Hnd. destruct (deleting s0) as [j|] eqn:Hd.
  - rewrite (list_filter_iff _ (λ b, id b = j)).
    + by apply at_most_one_with_id.
    + intros b. by apply isDeleting_spec.
  - assert (Hnil : filter (λ b, isDeleting s0 b) (bookmarks s0) = []).
    { apply filter_none. intros b _.
      unfold isDeleting. rewrite bool_decide_spec, Hd. discriminate. }
    rewrite Hnil. simpl. lia.
Qed.

Lemma deleteBookmark_marker_set_then_reset_witness :
  NoDup (ids (bookmarks (setDeleting (Some "a1") (mount [a1; a2])))) ∧
  (length (filter (λ b, isDeleting (setDeleting (Some "a1") (mount [a1; a2])) b)
             (bookmarks (setDeleting (Some "a1") (mount [a1; a2])))) ≤ 1)%nat.
Proof.
  assert (H : NoDup (ids (bookmarks
                (setDeleting (Some "a1") (mount [a1; a2]))))).
  { apply (bool_decide_unpack _). vm_compute. exact I. }
  split; [exact H|].
  exact (proj2 (proj2 (proj2 (proj2 (proj2
    (deleteBookmark_marker_set_then_reset me "a1" (mount [a1; a2]) None
       {| data := None; failure := None |} (λ s, s) (λ s, s))))))
    _ H).
Defined.

(** ** Add *)

Lemma falsy_spec (s : string) : falsy s = true ↔ s = "".
Proof. destruct s; simpl; split; congruence. Qed.

Lemma addBookmark_resume_bookmarks (row : Bookmark) (s : State) :
  bookmarks (addBookmark_resume {| data := Some row; failure := None |} s)
  = bookmarks (addToList row s).
Proof. reflexivity. Qed.

(** C4, as the code has it. With an empty list and the inputs "HN" and
    "https://news.ycombinator.com" (which [new URL] accepts), [addBookmark]
    issues the insert request for these two values and the session's user;
    resumed with the stored row of identifier "a1", the list is that one
    record. In general the returned row goes through [addToList], as the
    row of an insert notification of the user's own does: it is put at the
    head of the list when its identifier is not in the list, and the list
    is unchanged when the identifier is there. [addToList] does not read
    [created_at]: a list that is newest first stays so when the row is at
    least as new as its records. *)
Theorem addBookmark_success_prepends
    (user : User) (parsesAsURL : string → bool) :
  parsesAsURL "https://news.ycombinator.com" = true →
  (∀ T : string,
     let typed := setTitle "HN" (setUrl "https://news.ycombinator.com" (mount [])) in
     let awaiting := setLoading true (setError None typed) in
     let stored :=
       {| id := "a1"; url := "https://news.ycombinator.com"; title := "HN";
          created_at := T |} in
     addBookmark_begin user parsesAsURL typed
     = AddAwaiting
         {| insert_url := "https://news.ycombinator.com"; insert_title := "HN";
            insert_user_id := uid user |} awaiting ∧
     bookmarks
       (addBookmark_resume {| data := Some stored; failure := None |} awaiting)
     = [stored]) ∧
  (∀ (row : Bookmark) (s : State),
     let s' := addBookmark_resume {| data := Some row; failure := None |} s in
     bookmarks s' = bookmarks (addToList row s) ∧
     bookmarks s'
     = bookmarks (onInsert user {| fields := row; user_id := uid user |} s) ∧
     (id row ∉ ids (bookmarks s) → bookmarks s' = row :: bookmarks s) ∧
     (id row ∈ ids (bookmarks s) → bookmarks s' = bookmarks s) ∧
     (∀ instant, id row ∉ ids (bookmarks s) →
        Sorted (newer_first instant) (bookmarks s) →
        (∀ b, b ∈ bookmarks s → newer_first instant row b) →
        Sorted (newer_first instant) (bookmarks s'))).
Proof.
  intros Hurl. split.
  - intros T. simpl. unfold addBookmark_begin. simpl.
    change (trim "https://news.ycombinator.com")
      with "https://news.ycombinator.com".
    change (trim "HN") with "HN". simpl. rewrite Hurl. simpl.
    split; reflexivity.
  - intros row s s'. subst s'. rewrite addBookmark_resume_bookmarks.
    split; [reflexivity|]. split.
    { unfold onInsert. simpl user_id. by rewrite String.eqb_refl. }
    split; [apply addToList_absent|]. split; [apply addToList_present|].
    intros instant Hnew Hsorted Hall.
    rewrite (addToList_absent row s Hnew).
    apply Sorted_cons; [exact Hsorted|].
    destruct (bookmarks s) as [|b l]; constructor.
    apply Hall, list_elem_of_here.
Qed.

Lemma addBookmark_success_prepends_witness :
  let accepts := String.eqb "https://news.ycombinator.com" in
  accepts "https://news.ycombinator.com" = true ∧
  bookmarks
    (addBookmark_resume {| data := Some a1; failure := None |}
       (setLoading true (setError None
          (setTitle "HN" (setUrl "https://news.ycombinator.com" (mount []))))))
  = [a1].
Proof.
  assert (H : String.eqb "https://news.ycombinator.com"
                "https://news.ycombinator.com" = true) by reflexivity.
  split; [exact H|].
  exact (proj2 (proj1 (addBookmark_success_prepends me
           (String.eqb "https://news.ycombinator.com") H)
         (created_at a1))).
Defined.

(** C4, the counterexample. The list holds [a1]; the insert request
    resolves to the row [a2], created a day before [a1] (another tab's later
    record can be notified before the answer to this tab's request
    arrives). The row is put at the head: the list was newest first and
    is not any more. *)
Lemma addBookmark_success_can_break_newest_first :
  let s := mount [a1] in
  let s' := addBookmark_resume {| data := Some a2; failure := None |} s in
  sample_instant (created_at a2) < sample_instant (created_at a1) ∧
  Sorted (newer_first sample_instant) (bookmarks s) ∧
  bookmarks s' = [a2; a1] ∧
  ¬ Sorted (newer_first sample_instant) (bookmarks s').
Proof.
  split; [reflexivity|]. split; [repeat constructor|].
  split; [reflexivity|].
  intros Hsorted. apply Sorted_inv in Hsorted as [_ Hhead].
  apply HdRel_inv in Hhead. unfold newer_first in Hhead.
  vm_compute in Hhead. by apply Hhead.
Qed.

(** C5. When the title or the URL is empty once trimmed, or [new URL]
    rejects the trimmed URL, [addBookmark] returns before any request is
    issued, having set the error to a non-empty message and nothing else:
    the list, like every other hook, is as it was. *)
Theorem addBookmark_rejects_invalid_input
    (user : User) (parsesAsURL : string → bool) (s : State) :
  trim (titleInput s) = "" ∨ trim (urlInput s) = "" ∨
  parsesAsURL (trim (urlInput s)) = false →
  ∃ message,
    message ≠ "" ∧
    addBookmark_begin user parsesAsURL s
    = AddReturned (setError (Some message) s) ∧
    bookmarks (setError (Some message) s) = bookmarks s ∧
    error (setError (Some message) s) = Some message.
Proof.
  intros Hbad. unfold addBookmark_begin.
  destruct (falsy (trim (urlInput s)) || falsy (trim (titleInput s))) eqn:E.
  - eexists. split; [|split; [reflexivity|split; reflexivity]]. discriminate.
  - apply orb_false_iff in E as [Eu Et].
    destruct Hbad as [Ht|[Hu|Hp]].
    + apply falsy_spec in Ht. congruence.
    + apply falsy_spec in Hu. congruence.
    + rewrite Hp. simpl.
      eexists. split; [|split; [reflexivity|split; reflexivity]]. discriminate.
Qed.

Lemma addBookmark_rejects_invalid_input_witness :
  let typed := setTitle "  " (setUrl "not a url" (mount [a1])) in
  (trim (titleInput typed) = "" ∨ trim (urlInput typed) = "" ∨
   (λ _, false) (trim (urlInput typed)) = false) ∧
  ∃ message,
    message ≠ "" ∧
    addBookmark_begin me (λ _, false) typed
    = AddReturned (setError (Some message) typed) ∧
    bookmarks (setError (Some message) typed) = bookmarks typed ∧
    error (setError (Some message) typed) = Some message.
Proof.
  assert (H : trim (titleInput (setTitle "  " (setUrl "not a url" (mount [a1]))))
              = "" ∨
              trim (urlInput (setTitle "  " (setUrl "not a url" (mount [a1]))))
              = "" ∨
              (λ _ : string, false)
                (trim (urlInput (setTitle "  " (setUrl "not a url" (mount [a1])))))
              = false).
  { left. reflexivity. }
  split; [exact H|].
  exact (addBookmark_rejects_invalid_input me (λ _, false) _ H).
Defined.

(** ** The highlight markers *)

Lemma fire_timers (ready : list Timer) (s : State) :
  timers (fire ready s) = timers s ∧ now (fire ready s) = now s.
Proof.
  unfold fire. revert s. induction ready as [|t ready IH]; intros s; simpl.
  - by split.
  - destruct (IH (clearHighlight (target t) s)) as [-> ->]. by split.
Qed.

Lemma fire_newIds (ready : list Timer) (s : State) (x : string) :
  x ∈ newIds (fire ready s) ↔ x ∈ newIds s ∧ x ∉ target <$> ready.
Proof.
  unfold fire. revert s. induction ready as [|t ready IH]; intros s; simpl.
  - split; [intros H; split; [exact H | by intros ?%elem_of_nil] | by intros [H _]].
  - rewrite IH. simpl. rewrite elem_of_difference, elem_of_singleton.
    rewrite not_elem_of_cons. tauto.
Qed.

Lemma elapse_newIds_subset (ms : N) (s : State) (x : string) :
  x ∈ newIds (elapse ms s) → x ∈ newIds s.
Proof. unfold elapse. rewrite fire_newIds. simpl. tauto. Qed.

Lemma elapse_fires_due (ms : N) (s : State) (t : Timer) :
  t ∈ timers s → due t ≤ now s + ms → target t ∉ newIds (elapse ms s).
Proof.
  intros Hin Hdue. unfold elapse. rewrite fire_newIds.
  intros [_ Hnot]. apply Hnot. apply list_elem_of_fmap_2.
  apply list_elem_of_filter. by split.
Qed.

Lemma elapse_keeps_later (ms : N) (s : State) (t : Timer) :
  t ∈ timers s → now s + ms < due t → t ∈ timers (elapse ms s).
Proof.
  intros Hin Hdue. unfold elapse.
  destruct (fire_timers
    (filter (λ t0, due t0 ≤ now s + ms) (timers s))
    (setHost (filter (λ t0, now s + ms < due t0) (timers s)) (now s + ms) s))
    as [-> _].
  simpl. apply list_elem_of_filter. by split.
Qed.

Lemma elapse_now (ms : N) (s : State) : now (elapse ms s) = now s + ms.
Proof.
  unfold elapse.
  destruct (fire_timers
    (filter (λ t0, due t0 ≤ now s + ms) (timers s))
    (setHost (filter (λ t0, now s + ms < due t0) (timers s)) (now s + ms) s))
    as [_ ->].
  reflexivity.
Qed.

(** A timer that is not yet due at the end of [os] is still pending then,
    and the clock has advanced by the time that passed during [os]. *)
Lemma performAll_keeps_later (os : list Op) (s : State) (t : Timer) :
  t ∈ timers s → now s + elapsed os < due t →
  t ∈ timers (performAll os s) ∧ now (performAll os s) = now s + elapsed os.
Proof.
  unfold performAll. revert s.
  induction os as [|o os IH]; intros s Hin Hdue; simpl in *.
  - split; [exact Hin | lia].
  - destruct o as [bookmark|i|rows|ms]; simpl.
    + apply (IH (addToList bookmark s)); simpl; [|exact Hdue].
      apply elem_of_app. by left.
    + by apply (IH (removeFromList i s)).
    + by apply (IH (setBookmarks (λ _, rows) s)).
    + destruct (IH (elapse ms s)) as [Ht Hnow].
      * apply elapse_keeps_later; [exact Hin | lia].
      * rewrite elapse_now. lia.
      * split; [exact Ht|]. rewrite Hnow, elapse_now. lia.
Qed.

(** Without a call of [addToList] for [x], an absent marker stays absent. *)
Lemma performAll_stays_clear (os : list Op) (s : State) (x : string) :
  Forall (λ o, ¬ adds x o) os → x ∉ newIds s → x ∉ newIds (performAll os s).
Proof.
  unfold performAll. revert s.
  induction os as [|o os IH]; intros s Hos Hx; simpl; [exact Hx|].
  apply Forall_cons in Hos as [Ho Hos]. apply IH; [exact Hos|].
  destruct o as [bookmark|i|rows|ms]; simpl in *.
  - rewrite elem_of_union, elem_of_singleton. intros [H|H]; [by apply Hx|].
    apply Ho. by symmetry.
  - exact Hx.
  - exact Hx.
  - intros H. by apply Hx, (elapse_newIds_subset ms).
Qed.

(** C6, as the code has it. Every call of [addToList], whether or not it
    inserts the record, marks the identifier of the record as recently
    arrived and sets a timer of 2000 ms. The marker is there right after the
    call. Whatever calls ([addToList] of any record, [removeFromList],
    replacement of the list) and timer expiries happen during the first
    2000 ms, the marker is gone as soon as 2000 ms have passed, and stays
    gone as long as [addToList] is not called again for that identifier. *)
Theorem addToList_highlight_window
    (bookmark : Bookmark) (s : State) (os : list Op) (ms : N) (os' : list Op) :
  elapsed os < HIGHLIGHT_MS →
  HIGHLIGHT_MS ≤ elapsed os + ms →
  Forall (λ o, ¬ adds (id bookmark) o) os' →
  let marked := addToList bookmark s in
  id bookmark ∈ newIds marked ∧
  isNew marked bookmark = true ∧
  {| due := now s + HIGHLIGHT_MS; target := id bookmark |} ∈ timers marked ∧
  (id bookmark ∉ newIds (elapse ms (performAll os marked))) ∧
  (id bookmark ∉ newIds (performAll os' (elapse ms (performAll os marked)))).
Proof.
  intros Hin Hout Hafter marked.
  assert (Hmark : id bookmark ∈ newIds marked).
  { simpl. apply elem_of_union. right. by apply elem_of_singleton. }
  assert (Htimer : {| due := now s + HIGHLIGHT_MS; target := id bookmark |}
                   ∈ timers marked).
  { simpl. apply elem_of_app. right. apply list_elem_of_here. }
  assert (Hgone : id bookmark ∉ newIds (elapse ms (performAll os marked))).
  { destruct (performAll_keeps_later os marked _ Htimer) as [Hpending Hnow].
    { simpl. lia. }
    apply (elapse_fires_due ms _ _ Hpending). rewrite Hnow. simpl. lia. }
  split; [exact Hmark|]. split.
  { unfold isNew. by apply bool_decide_eq_true. }
  split; [exact Htimer|]. split; [exact Hgone|].
  by apply performAll_stays_clear.
Qed.

Lemma addToList_highlight_window_witness :
  let os := [Op_removeFromList "a1"; Op_elapse 1500;
             Op_addToList a1_other_fields] in
  let os' := [Op_addToList a2; Op_elapse 3000] in
  elapsed os < HIGHLIGHT_MS ∧
  HIGHLIGHT_MS ≤ elapsed os + 600 ∧
  Forall (λ o, ¬ adds (id a1) o) os' ∧
  id a1 ∉ newIds (performAll os' (elapse 600
                    (performAll os (addToList a1 (mount []))))).
Proof.
  assert (H1 : elapsed [Op_removeFromList "a1"; Op_elapse 1500;
                        Op_addToList a1_other_fields] < HIGHLIGHT_MS).
  { reflexivity. }
  assert (H2 : HIGHLIGHT_MS ≤ elapsed [Op_removeFromList "a1"; Op_elapse 1500;
                                       Op_addToList a1_other_fields] + 600).
  { vm_compute. discriminate. }
  assert (H3 : Forall (λ o, ¬ adds (id a1) o)
                 [Op_addToList a2; Op_elapse 3000]).
  { repeat constructor; simpl; [discriminate | tauto]. }
  split; [exact H1|]. split; [exact H2|]. split; [exact H3|].
  exact (proj2 (proj2 (proj2 (proj2
    (addToList_highlight_window a1 (mount []) _ 600 _ H1 H2 H3))))).
Defined.

(** C6, the counterexample. The list holds [a1], never highlighted. A call of
    [addToList] with a record of identifier "a1" leaves the list as it is,
    and yet marks "a1" as recently arrived and sets a timer for it. *)
Lemma addToList_marks_without_inserting :
  let s := mount [a1] in
  let s' := addToList a1_other_fields s in
  bookmarks s' = bookmarks s ∧
  isNew s a1 = false ∧
  isNew s' a1 = true ∧
  timers s = [] ∧
  timers s' = [ {| due := 2000; target := "a1" |} ].
Proof. vm_compute. repeat split; reflexivity. Qed.

(** ** Connectivity status *)

(** The status the callback sets for a subscription status. *)
Lemma subscribeCallback_status (status : SubscribeStatus.t) (s : State) :
  realtimeStatus (subscribeCallback status s)
  = match status with
    | SubscribeStatus.SUBSCRIBED => RealtimeStatus.connected
    | SubscribeStatus.CHANNEL_ERROR => RealtimeStatus.error
    | SubscribeStatus.TIMED_OUT => RealtimeStatus.error
    | SubscribeStatus.CLOSED => RealtimeStatus.connecting
    end.
Proof. destruct status; reflexivity. Qed.

(** C7, as the code has it. The status is [connecting] at mount. The
    subscribe callback sets it from the subscription status alone, whatever
    it was before, and touches nothing else: SUBSCRIBED gives [connected],
    CHANNEL_ERROR and TIMED_OUT give [error], CLOSED gives [connecting]. So
    each transition of the specified state machine can be taken, every
    status can be left (no terminal state), and every status can be reached
    from every status: in particular [error] to [connected], on SUBSCRIBED. *)
Theorem subscribeCallback_tracks_latest_status
    (status : SubscribeStatus.t) (s : State) :
  (∀ initialBookmarks,
     realtimeStatus (mount initialBookmarks) = RealtimeStatus.connecting) ∧
  subscribeCallback status s
  = setRealtimeStatus
      (match status with
       | SubscribeStatus.SUBSCRIBED => RealtimeStatus.connected
       | SubscribeStatus.CHANNEL_ERROR => RealtimeStatus.error
       | SubscribeStatus.TIMED_OUT => RealtimeStatus.error
       | SubscribeStatus.CLOSED => RealtimeStatus.connecting
       end) s ∧
  (∀ s0, realtimeStatus (subscribeCallback status s0)
         = realtimeStatus (subscribeCallback status s)) ∧
  (∀ from to, spec_transition from to = true →
     ∃ status0, ∀ s0, realtimeStatus s0 = from →
       realtimeStatus (subscribeCallback status0 s0) = to) ∧
  (∃ status0,
     realtimeStatus (subscribeCallback status0 s) ≠ realtimeStatus s) ∧
  (∀ to, ∃ status0, realtimeStatus (subscribeCallback status0 s) = to).
Proof.
  split; [reflexivity|]. split; [destruct status; reflexivity|].
  split; [intros s0; by rewrite !subscribeCallback_status|].
  split; [|split].
  - intros from to Hstep.
    destruct to;
      [exists SubscribeStatus.CLOSED | exists SubscribeStatus.SUBSCRIBED
      | exists SubscribeStatus.CHANNEL_ERROR];
      intros s0 _; reflexivity.
  - destruct (realtimeStatus s) eqn:E;
      [exists SubscribeStatus.SUBSCRIBED | exists SubscribeStatus.CLOSED
      | exists SubscribeStatus.SUBSCRIBED];
      rewrite subscribeCallback_status; discriminate.
  - intros to.
    destruct to;
      [exists SubscribeStatus.CLOSED | exists SubscribeStatus.SUBSCRIBED
      | exists SubscribeStatus.TIMED_OUT];
      reflexivity.
Qed.

(** C7, the counterexample. In the status [error] the callback, called with
    SUBSCRIBED, sets [connected]: a transition the specified state machine
    does not have. Called with CLOSED in the status [connected] it sets
    [connecting], with no remount and no new subscribe attempt. *)
Lemma subscribeCallback_leaves_specified_machine :
  let errored := setRealtimeStatus RealtimeStatus.error (mount []) in
  let live := setRealtimeStatus RealtimeStatus.connected (mount []) in
  realtimeStatus errored = RealtimeStatus.error ∧
  realtimeStatus (subscribeCallback SubscribeStatus.SUBSCRIBED errored)
  = RealtimeStatus.connected ∧
  spec_transition RealtimeStatus.error RealtimeStatus.connected = false ∧
  realtimeStatus (subscribeCallback SubscribeStatus.CLOSED live)
  = RealtimeStatus.connecting.
Proof. repeat split; reflexivity. Qed.

(** ** Snapshot Loader *)

(** C8. With a session, the loader renders the component with what the
    store answered to the ordered query: against a store that answers, the
    records of the session's user, all of them and only them, newest first,
    so the empty list when the user has none; and the empty list when the
    query resolves to no data. Without a session it redirects. *)
Theorem DashboardContent_snapshot
    (instant : string → N) (table : list Row) (user : User) :
  (∃ rows,
     DashboardContent (Some user) (recordStore_select instant true table)
     = Rendered rows user ∧
     rows ≡ₚ owned_by (uid user) table ∧
     StronglySorted (newer_first instant) rows ∧
     (owned_by (uid user) table = [] → rows = [])) ∧
  DashboardContent (Some user) (recordStore_select instant false table)
  = Rendered [] user ∧
  (∀ select, data (select user) = None →
     DashboardContent (Some user) select = Rendered [] user) ∧
  (∀ select rows, data (select user) = Some rows →
     DashboardContent (Some user) select = Rendered rows user) ∧
  (∀ select, DashboardContent None select = Redirected "/").
Proof.
  split; [|split; [reflexivity|split; [|split]]].
  - exists (merge_sort (newer_first instant) (owned_by (uid user) table)).
    split; [reflexivity|]. split; [apply merge_sort_Permutation|].
    split; [apply StronglySorted_merge_sort; apply _|].
    intros Hnone. rewrite Hnone. reflexivity.
  - intros select Hnone. simpl. by rewrite Hnone.
  - intros select rows Hsome. simpl. by rewrite Hsome.
  - reflexivity.
Qed.

Lemma DashboardContent_snapshot_witness :
  DashboardContent (Some me) (recordStore_select sample_instant true sample_table)
  = Rendered [a1; a2] me ∧
  DashboardContent (Some me) (recordStore_select sample_instant false sample_table)
  = Rendered [] me.
Proof.
  split.
  - vm_compute. reflexivity.
  - exact (proj1 (proj2 (DashboardContent_snapshot sample_instant sample_table me))).
Defined.

(** * Further properties of the code *)

(** ** More on the list operations *)

Lemma filter_all (P : Bookmark → Prop) `{∀ b, Decision (P b)}
    (l : list Bookmark) :
  (∀ b, b ∈ l → P b) → filter P l = l.
Proof.
  induction l as [|b l IH]; intros Hall; [reflexivity|].
  rewrite filter_cons, decide_True by apply Hall, list_elem_of_here.
  f_equal. apply IH. intros b' Hin. by apply Hall, list_elem_of_further.
Qed.

Lemma some_id_filter_ne (i j : string) (l : list Bookmark) :
  i ≠ j → some_id i (filter (λ b, id b ≠ j) l) = some_id i l.
Proof.
  intros Hne. destruct (some_id i l) eqn:E.
  - apply some_id_spec. apply some_id_spec in E. unfold ids in *.
    apply list_elem_of_fmap in E as (b & -> & Hb).
    apply list_elem_of_fmap_2, list_elem_of_filter. by split.
  - apply some_id_false. apply some_id_false in E. unfold ids in *.
    intros (b & -> & Hb)%list_elem_of_fmap. apply E.
    apply list_elem_of_filter in Hb as [_ Hb]. by apply list_elem_of_fmap_2.
Qed.

Lemma exactly_one_with_id (i : string) (l : list Bookmark) :
  NoDup (ids l) → i ∈ ids l → length (filter (λ b, id b = i) l) = 1%nat.
Proof.
  intros Hnd Hin. pose proof (at_most_one_with_id i l Hnd) as Hle.
  unfold ids in Hin. apply list_elem_of_fmap in Hin as (b & -> & Hb).
  assert (Hb' : b ∈ filter (λ b0, id b0 = id b) l).
  { apply list_elem_of_filter. by split. }
  destruct (filter (λ b0, id b0 = id b) l) as [|x [|y rest]]; simpl in *.
  - inversion Hb'.
  - reflexivity.
  - lia.
Qed.

(** X1. [removeFromList] takes out exactly the records with the given
    identifier: a record is in the list afterwards if and only if it was in
    it and has another identifier; the records kept are in their former
    order; the identifier is no longer in the list; a second removal changes
    nothing more. *)
Theorem removeFromList_removes_exactly (i : string) (s : State) :
  (∀ b, b ∈ bookmarks (removeFromList i s) ↔ b ∈ bookmarks s ∧ id b ≠ i) ∧
  bookmarks (removeFromList i s) `sublist_of` bookmarks s ∧
  (i ∉ ids (bookmarks (removeFromList i s))) ∧
  removeFromList i (removeFromList i s) = removeFromList i s.
Proof.
  split; [|split; [|split]].
  - intros b. simpl. rewrite list_elem_of_filter. tauto.
  - apply sublist_filter.
  - apply not_in_filter_ids.
  - unfold removeFromList, setBookmarks. simpl. f_equal.
    apply filter_all. intros b Hb.
    by apply list_elem_of_filter in Hb as [Hne _].
Qed.

(** X2. Removing an identifier that is not in the list leaves the whole
    state as it is: a delete notification for a record already removed, or
    never shown, is a no-op. *)
Theorem removeFromList_absent_is_noop (i : string) (s : State) :
  i ∉ ids (bookmarks s) → removeFromList i s = s.
Proof.
  intros Hout. destruct s as [l u t ld d e n r tm nw].
  unfold removeFromList, setBookmarks. simpl in *. f_equal.
  apply filter_all. intros b Hb Heq. apply Hout. rewrite <- Heq.
  unfold ids. by apply list_elem_of_fmap_2.
Qed.

Lemma removeFromList_absent_is_noop_witness :
  ("a2" ∉ ids (bookmarks (mount [a1]))) ∧
  removeFromList "a2" (mount [a1]) = mount [a1].
Proof.
  assert (H : "a2" ∉ ids (bookmarks (mount [a1]))).
  { simpl. intros [E|E]%elem_of_cons; [discriminate | inversion E]. }
  split; [exact H|].
  exact (removeFromList_absent_is_noop "a2" (mount [a1]) H).
Defined.

(** X3. Removing the identifier of a record right after [addToList] of that
    record gives the list that removing it alone gives; so when the
    identifier was not in the list, the list is back to what it was. *)
Theorem removeFromList_undoes_addToList (bookmark : Bookmark) (s : State) :
  bookmarks (removeFromList (id bookmark) (addToList bookmark s))
  = bookmarks (removeFromList (id bookmark) s) ∧
  (id bookmark ∉ ids (bookmarks s) →
   bookmarks (removeFromList (id bookmark) (addToList bookmark s))
   = bookmarks s).
Proof.
  assert (Hadd : bookmarks (removeFromList (id bookmark) (addToList bookmark s))
                 = bookmarks (removeFromList (id bookmark) s)).
  { change (filter (λ b, id b ≠ id bookmark) (bookmarks (addToList bookmark s))
            = filter (λ b, id b ≠ id bookmark) (bookmarks s)).
    destruct (decide (id bookmark ∈ ids (bookmarks s))) as [Hin|Hout].
    - by rewrite (addToList_present bookmark s Hin).
    - rewrite (addToList_absent bookmark s Hout).
      rewrite filter_cons, decide_False; [reflexivity|].
      intros Hne. by apply Hne. }
  split; [exact Hadd|]. intros Hout. rewrite Hadd.
  apply filter_all. intros b Hb Heq. apply Hout. rewrite <- Heq.
  unfold ids. by apply list_elem_of_fmap_2.
Qed.

Lemma removeFromList_undoes_addToList_witness :
  (id a2 ∉ ids (bookmarks (mount [a1]))) ∧
  bookmarks (removeFromList (id a2) (addToList a2 (mount [a1]))) = [a1].
Proof.
  assert (H : id a2 ∉ ids (bookmarks (mount [a1]))).
  { simpl. intros [E|E]%elem_of_cons; [discriminate | inversion E]. }
  split; [exact H|].
  exact (proj2 (removeFromList_undoes_addToList a2 (mount [a1])) H).
Defined.

(** X4. [addToList] of a record and [removeFromList] of another identifier
    commute: an insert and a delete that concern different records give the
    same state in either order. *)
Theorem addToList_removeFromList_commute
    (bookmark : Bookmark) (j : string) (s : State) :
  id bookmark ≠ j →
  addToList bookmark (removeFromList j s)
  = removeFromList j (addToList bookmark s).
Proof.
  intros Hne. unfold addToList, removeFromList, setTimeout, setNewIds,
    setBookmarks. simpl. f_equal.
  unfold prepend_unless_present. rewrite (some_id_filter_ne _ _ _ Hne).
  destruct (some_id (id bookmark) (bookmarks s)); [reflexivity|].
  by rewrite filter_cons, decide_True.
Qed.

Lemma addToList_removeFromList_commute_witness :
  id a2 ≠ "a1" ∧
  addToList a2 (removeFromList "a1" (mount [a1]))
  = removeFromList "a1" (addToList a2 (mount [a1])).
Proof.
  assert (H : id a2 ≠ "a1") by discriminate.
  split; [exact H|].
  exact (addToList_removeFromList_commute a2 "a1" (mount [a1]) H).
Defined.

Lemma filter_id_split_length (i : string) (l : list Bookmark) :
  (length (filter (λ b, id b ≠ i) l) + length (filter (λ b, id b = i) l)
   = length l)%nat.
Proof.
  induction l as [|b l IH]; [reflexivity|].
  rewrite !filter_cons. destruct (decide (id b = i)) as [Heq|Hne].
  - rewrite decide_False by (intros Hne; by apply Hne). simpl. lia.
  - rewrite decide_True by exact Hne. simpl. lia.
Qed.

(** X5. The number of records shown, [bookmarks.length]. [addToList] adds
    one when the identifier of the record is not in the list and none when
    it is. In a list without two records of the same identifier
    [removeFromList] takes one away when the identifier is in the list and
    none when it is not. *)
Theorem list_length_changes_by_one
    (bookmark : Bookmark) (i : string) (s : State) :
  NoDup (ids (bookmarks s)) →
  length (bookmarks (addToList bookmark s))
  = (if decide (id bookmark ∈ ids (bookmarks s))
     then length (bookmarks s) else S (length (bookmarks s))) ∧
  (if decide (i ∈ ids (bookmarks s))
   then S (length (bookmarks (removeFromList i s)))
   else length (bookmarks (removeFromList i s)))
  = length (bookmarks s).
Proof.
  intros Hnd. split.
  - destruct (decide _) as [Hin|Hout].
    + by rewrite (addToList_present bookmark s Hin).
    + by rewrite (addToList_absent bookmark s Hout).
  - pose proof (filter_id_split_length i (bookmarks s)) as Hlen.
    change (bookmarks (removeFromList i s))
      with (filter (λ b, id b ≠ i) (bookmarks s)).
    destruct (decide _) as [Hin|Hout].
    + rewrite (exactly_one_with_id i _ Hnd Hin) in Hlen. lia.
    + rewrite (filter_none (λ b, id b = i)) in Hlen; [simpl in Hlen; lia|].
      intros b Hb Heq. apply Hout. rewrite <- Heq. unfold ids.
      by apply list_elem_of_fmap_2.
Qed.

Lemma list_length_changes_by_one_witness :
  NoDup (ids (bookmarks (mount [a1; a2]))) ∧
  length (bookmarks (addToList a1_other_fields (mount [a1; a2]))) = 2%nat ∧
  S (length (bookmarks (removeFromList "a2" (mount [a1; a2])))) = 2%nat.
Proof.
  assert (H : NoDup (ids (bookmarks (mount [a1; a2])))).
  { apply (bool_decide_unpack _). vm_compute. exact I. }
  split; [exact H|].
  exact (list_length_changes_by_one a1_other_fields "a2" (mount [a1; a2]) H).
Defined.

(** X6. One record through two sources. When the row returned by the insert
    request and an insert notification carry the same identifier, then in
    either order of arrival, and whoever the notification says the owner
    is, a list that had no two records of one identifier holds exactly one
    record of that identifier afterwards. *)
Theorem optimistic_add_and_notification_leave_one
    (user : User) (row : Bookmark) (incoming : Row) (s : State) :
  NoDup (ids (bookmarks s)) →
  id (fields incoming) = id row →
  let added := addBookmark_resume {| data := Some row; failure := None |} in
  length (filter (λ b, id b = id row)
            (bookmarks (onInsert user incoming (added s)))) = 1%nat ∧
  length (filter (λ b, id b = id row)
            (bookmarks (added (onInsert user incoming s)))) = 1%nat.
Proof.
  intros Hnd Hid added.
  assert (Hin : ∀ s0, id row ∈ ids (bookmarks (addToList row s0))).
  { intros s0. destruct (decide (id row ∈ ids (bookmarks s0))) as [Hin|Hout].
    - by rewrite (addToList_present row s0 Hin).
    - rewrite (addToList_absent row s0 Hout). unfold ids. rewrite fmap_cons.
      apply list_elem_of_here. }
  split; apply exactly_one_with_id.
  - apply (handle_NoDup user (InsertNotification incoming)).
    by apply (addToList_NoDup row).
  - unfold onInsert. destruct (negb _); [apply Hin|].
    rewrite addToList_present; [apply Hin | rewrite Hid; apply Hin].
  - apply (addToList_NoDup row).
    by apply (handle_NoDup user (InsertNotification incoming)).
  - apply Hin.
Qed.

Lemma optimistic_add_and_notification_leave_one_witness :
  NoDup (ids (bookmarks (mount [a2]))) ∧
  id (fields (mine a1_other_fields)) = id a1 ∧
  length (filter (λ b, id b = id a1)
            (bookmarks
               (onInsert me (mine a1_other_fields)
                  (addBookmark_resume {| data := Some a1; failure := None |}
                     (mount [a2]))))) = 1%nat.
Proof.
  assert (H : NoDup (ids (bookmarks (mount [a2])))).
  { apply (bool_decide_unpack _). vm_compute. exact I. }
  assert (Hid : id (fields (mine a1_other_fields)) = id a1) by reflexivity.
  split; [exact H|]. split; [exact Hid|].
  exact (proj1 (optimistic_add_and_notification_leave_one
                  me a1 (mine a1_other_fields) (mount [a2]) H Hid)).
Defined.

(** ** More on the highlight markers *)

Lemma perform_highlights_scheduled (o : Op) (s : State) :
  highlights_scheduled s → highlights_scheduled (perform o s).
Proof.
  intros [Hcover Hdue]. destruct o as [bookmark|i|rows|ms]; simpl.
  - split.
    + intros x. simpl. rewrite elem_of_union, elem_of_singleton.
      intros [Hx| ->].
      * destruct (Hcover x Hx) as (t & Ht & Htarget). exists t.
        split; [|exact Htarget]. apply elem_of_app. by left.
      * eexists. split; [apply elem_of_app; right; apply list_elem_of_here|].
        reflexivity.
    + intros t. simpl. rewrite elem_of_app, list_elem_of_singleton.
      intros [Ht| ->]; [by apply Hdue|]. simpl. unfold HIGHLIGHT_MS. lia.
  - by split.
  - by split.
  - split.
    + intros x Hx. unfold elapse in Hx. apply fire_newIds in Hx as [Hx Hnot].
      simpl in Hx. destruct (Hcover x Hx) as (t & Ht & Htarget).
      exists t. split; [|exact Htarget].
      destruct (decide (now s + ms < due t)) as [Hlater|Hready].
      * by apply elapse_keeps_later.
      * exfalso. apply Hnot. rewrite <- Htarget. apply list_elem_of_fmap_2.
        apply list_elem_of_filter. split; [lia | exact Ht].
    + intros t Ht. rewrite elapse_now. unfold elapse in Ht.
      destruct (fire_timers
        (filter (λ t0, due t0 ≤ now s + ms) (timers s))
        (setHost (filter (λ t0, now s + ms < due t0) (timers s))
           (now s + ms) s)) as [Htimers _].
      rewrite Htimers in Ht. simpl in Ht.
      apply list_elem_of_filter in Ht as [Hlater Ht].
      destruct (Hdue t Ht) as [_ Hbound]. lia.
Qed.

Lemma performAll_highlights_scheduled (os : list Op) (s : State) :
  highlights_scheduled s → highlights_scheduled (performAll os s).
Proof.
  unfold performAll. revert s.
  induction os as [|o os IH]; intros s Hs; simpl; [exact Hs|].
  by apply IH, perform_highlights_scheduled.
Qed.

(** X7. No highlight outlives its window. In every state that a mounted
    component reaches through calls of [addToList], [removeFromList],
    replacements of the list and the passing of time, each highlighted
    identifier has a pending timer and each pending timer is due within
    2000 ms; so once 2000 ms or more pass without a call of [addToList], no
    identifier is highlighted and no timer is pending. *)
Theorem highlights_all_expire
    (initialBookmarks : list Bookmark) (os : list Op) (ms : N) :
  HIGHLIGHT_MS ≤ ms →
  let s := performAll os (mount initialBookmarks) in
  highlights_scheduled s ∧
  newIds (elapse ms s) = ∅ ∧
  timers (elapse ms s) = [].
Proof.
  intros Hms s.
  assert (Hs : highlights_scheduled s).
  { apply performAll_highlights_scheduled. split.
    - intros x Hx. simpl in Hx. by apply not_elem_of_empty in Hx.
    - intros t Ht. simpl in Ht. inversion Ht. }
  assert (Hs' : highlights_scheduled (elapse ms s)).
  { apply (perform_highlights_scheduled (Op_elapse ms)), Hs. }
  assert (Hnone : timers (elapse ms s) = []).
  { destruct (timers (elapse ms s)) as [|t rest] eqn:E; [reflexivity|].
    exfalso. assert (Ht : t ∈ timers (elapse ms s)).
    { rewrite E. apply list_elem_of_here. }
    unfold elapse in Ht.
    destruct (fire_timers
      (filter (λ t0, due t0 ≤ now s + ms) (timers s))
      (setHost (filter (λ t0, now s + ms < due t0) (timers s))
         (now s + ms) s)) as [Htimers _].
    rewrite Htimers in Ht. simpl in Ht.
    apply list_elem_of_filter in Ht as [Hlater Ht].
    destruct Hs as [_ Hdue]. destruct (Hdue t Ht) as [_ Hbound]. lia. }
  split; [exact Hs|]. split; [|exact Hnone].
  apply elem_of_equiv_empty_L. intros x Hx.
  destruct Hs' as [Hcover _]. destruct (Hcover x Hx) as (t & Ht & _).
  rewrite Hnone in Ht. inversion Ht.
Qed.

Lemma highlights_all_expire_witness :
  HIGHLIGHT_MS ≤ 2000 ∧
  newIds (elapse 2000
            (performAll [Op_addToList a1; Op_elapse 1999; Op_addToList a2]
               (mount []))) = ∅.
Proof.
  assert (H : HIGHLIGHT_MS ≤ 2000) by (unfold HIGHLIGHT_MS; lia).
  split; [exact H|].
  exact (proj1 (proj2 (highlights_all_expire []
           [Op_addToList a1; Op_elapse 1999; Op_addToList a2] 2000 H))).
Defined.

(** ** More on adding *)

Lemma trimEnd_idempotent (s : string) : trimEnd (trimEnd s) = trimEnd s.
Proof.
  induction s as [|c rest IH]; [reflexivity|]. simpl.
  destruct (trimEnd rest) as [|k kept] eqn:E.
  - destruct (isWhiteSpace c) eqn:Ec; [reflexivity|]. simpl. by rewrite Ec.
  - simpl in IH. simpl. by rewrite IH.
Qed.

Lemma trimStart_head (s : string) :
  match trimStart s with
  | EmptyString => True
  | String c _ => isWhiteSpace c = false
  end.
Proof.
  induction s as [|c rest IH]; simpl; [exact I|].
  destruct (isWhiteSpace c) eqn:Ec; [exact IH | exact Ec].
Qed.

Lemma trimEnd_keeps_head (c : Ascii.ascii) (rest : string) :
  isWhiteSpace c = false → ∃ kept, trimEnd (String c rest) = String c kept.
Proof.
  intros Hc. simpl. destruct (trimEnd rest) as [|k kept].
  - rewrite Hc. by eexists.
  - by eexists.
Qed.

Lemma trim_idempotent (s : string) : trim (trim s) = trim s.
Proof.
  unfold trim. pose proof (trimStart_head s) as Hhead.
  destruct (trimStart s) as [|c rest] eqn:E; [reflexivity|].
  destruct (trimEnd_keeps_head c rest Hhead) as [kept Hkept].
  rewrite Hkept. simpl trimStart. rewrite Hhead.
  rewrite <- Hkept. apply trimEnd_idempotent.
Qed.

(** X8. Whenever [addBookmark] issues the insert request, the request
    carries the trimmed URL and the trimmed title, both non-empty and both
    unchanged by a further trim, a URL that [new URL] accepts, and the
    identifier of the session's user; and the state it leaves while the
    request is in flight is the former one with the error cleared and the
    busy flag set. *)
Theorem addBookmark_request_is_valid
    (user : User) (parsesAsURL : string → bool)
    (s s' : State) (request : InsertRequest) :
  addBookmark_begin user parsesAsURL s = AddAwaiting request s' →
  insert_url request = trim (urlInput s) ∧
  insert_title request = trim (titleInput s) ∧
  insert_user_id request = uid user ∧
  insert_url request ≠ "" ∧
  insert_title request ≠ "" ∧
  trim (insert_url request) = insert_url request ∧
  trim (insert_title request) = insert_title request ∧
  parsesAsURL (insert_url request) = true ∧
  s' = setLoading true (setError None s).
Proof.
  unfold addBookmark_begin.
  destruct (falsy (trim (urlInput s)) || falsy (trim (titleInput s))) eqn:E;
    [discriminate|].
  destruct (parsesAsURL (trim (urlInput s))) eqn:Ep; simpl; [|discriminate].
  intros [= <- <-]. simpl. apply orb_false_iff in E as [Eu Et].
  repeat split; try reflexivity; try apply trim_idempotent.
  - intros Hu. apply falsy_spec in Hu. congruence.
  - intros Ht. apply falsy_spec in Ht. congruence.
  - exact Ep.
Qed.

Lemma addBookmark_request_is_valid_witness :
  let typed := setTitle " HN " (setUrl "  https://news.ycombinator.com "
                                  (mount [])) in
  let request := {| insert_url := "https://news.ycombinator.com";
                    insert_title := "HN"; insert_user_id := "u1" |} in
  let s' := setLoading true (setError None typed) in
  addBookmark_begin me (λ _, true) typed = AddAwaiting request s' ∧
  insert_url request = trim (urlInput typed) ∧
  insert_url request ≠ "" ∧
  trim (insert_title request) = insert_title request.
Proof.
  intros typed request s'.
  assert (H : addBookmark_begin me (λ _, true) typed = AddAwaiting request s')
    by reflexivity.
  destruct (addBookmark_request_is_valid me (λ _, true) typed s' request H)
    as (Hurl & _ & _ & Hne & _ & _ & Htitle & _).
  split; [exact H|]. split; [exact Hurl|]. split; [exact Hne|exact Htitle].
Defined.

(** X9. When the insert request comes back with an error, or with neither
    an error nor a row, [addBookmark] leaves the list, the highlight
    markers, the timers and what the user typed as they are and resets the
    busy flag; with an error it sets the message "Failed to add bookmark.
    Please try again.", without one it leaves the error as it is. *)
Theorem addBookmark_failure_keeps_list
    (response : Response Bookmark) (s : State) :
  is_Some (failure response) ∨ data response = None →
  let s' := addBookmark_resume response s in
  bookmarks s' = bookmarks s ∧
  newIds s' = newIds s ∧
  timers s' = timers s ∧
  urlInput s' = urlInput s ∧
  titleInput s' = titleInput s ∧
  loading s' = false ∧
  error s'
  = match failure response with
    | Some _ => Some "Failed to add bookmark. Please try again."
    | None => error s
    end.
Proof.
  intros Hbad. unfold addBookmark_resume.
  destruct (failure response) as [e|] eqn:Ef; [by repeat split|].
  destruct Hbad as [[e He]|Hnone]; [discriminate|].
  rewrite Hnone. by repeat split.
Qed.

Lemma addBookmark_failure_keeps_list_witness :
  let response := {| data := None; failure := Some "conflict" |} in
  let typed := setTitle "HN" (setUrl "https://news.ycombinator.com"
                                (mount [a2])) in
  (is_Some (failure response) ∨ data response = None) ∧
  bookmarks (addBookmark_resume response (setLoading true typed)) = [a2] ∧
  urlInput (addBookmark_resume response (setLoading true typed))
  = "https://news.ycombinator.com".
Proof.
  assert (H : is_Some (failure {| data := @None Bookmark;
                                  failure := Some "conflict" |}) ∨
              data {| data := @None Bookmark; failure := Some "conflict" |}
              = None).
  { right. reflexivity. }
  split; [exact H|].
  pose proof (addBookmark_failure_keeps_list _
    (setLoading true (setTitle "HN" (setUrl "https://news.ycombinator.com"
                                       (mount [a2])))) H) as Hf.
  split; [exact (proj1 Hf)|].
  exact (proj1 (proj2 (proj2 (proj2 Hf)))).
Defined.

(** X10. After a successful add both inputs are empty and the busy flag is
    reset, the error being as it was; so submitting again at once, by the
    button or by the Enter key, is turned down with "Both title and URL are
    required." and issues no request, while any other key does nothing. *)
Theorem addBookmark_success_clears_the_form
    (user : User) (parsesAsURL : string → bool) (row : Bookmark) (s : State) :
  let s' := addBookmark_resume {| data := Some row; failure := None |} s in
  urlInput s' = "" ∧
  titleInput s' = "" ∧
  loading s' = false ∧
  error s' = error s ∧
  addBookmark_begin user parsesAsURL s'
  = AddReturned (setError (Some "Both title and URL are required.") s') ∧
  handleKeyDown user parsesAsURL "Enter" s'
  = addBookmark_begin user parsesAsURL s' ∧
  (∀ key, key ≠ "Enter" →
     handleKeyDown user parsesAsURL key s' = AddReturned s').
Proof.
  simpl. repeat split.
  intros key Hkey. unfold handleKeyDown.
  destruct (String.eqb_spec key "Enter") as [->|_]; [contradiction|reflexivity].
Qed.

(** ** More on deleting *)

(** X11. A delete that succeeds leaves the list without the records of the
    identifier; the delete notification that echoes it changes nothing,
    whether it arrives after the call has finished or while the request is
    in flight. *)
Theorem deleteBookmark_echo_is_noop
    (user : User) (i : string) (deleted : Row) (s : State)
    (refetch : Response (list Bookmark)) :
  id (fields deleted) = i →
  let final := deleteBookmark user i None refetch (λ s, s) (λ s, s) s in
  bookmarks final = filter (λ b, id b ≠ i) (bookmarks s) ∧
  onDelete deleted final = final ∧
  deleteBookmark user i None refetch (onDelete deleted) (λ s, s) s = final.
Proof.
  intros Hid final. subst final.
  assert (Htwice : filter (λ b, id b ≠ i) (filter (λ b, id b ≠ i) (bookmarks s))
                   = filter (λ b, id b ≠ i) (bookmarks s)).
  { apply filter_all. intros b Hb.
    by apply list_elem_of_filter in Hb as [Hne _]. }
  split; [reflexivity|].
  unfold deleteBookmark, deleteBookmark_afterDelete, deleteBookmark_begin,
    onDelete, removeFromList, setDeleting, setBookmarks. simpl.
  rewrite Hid, Htwice. by split.
Qed.

Lemma deleteBookmark_echo_is_noop_witness :
  let final :=
    deleteBookmark me "a1" None {| data := None; failure := None |}
      (λ s, s) (λ s, s) (mount [a1; a2]) in
  id (fields (mine a1)) = "a1" ∧
  bookmarks final = [a2] ∧
  onDelete (mine a1) final = final.
Proof.
  intros final.
  assert (H : id (fields (mine a1)) = "a1") by reflexivity.
  destruct (deleteBookmark_echo_is_noop me "a1" (mine a1) (mount [a1; a2])
              {| data := None; failure := None |} H) as (Hl & He & _).
  split; [exact H|]. split; [exact Hl | exact He].
Defined.

(** X12. [deleteBookmark] writes the list and the mid-deletion marker and
    nothing else. Whatever the delete request and the rollback query
    answer, a call that is not interleaved with other handlers leaves the
    error, the busy flag, the inputs, the highlight markers, the timers and
    the connectivity status as they were: a failed delete sets no error
    message. *)
Theorem deleteBookmark_writes_no_other_hook
    (user : User) (i : string) (deleteError : option string)
    (refetch : Response (list Bookmark)) (s : State) :
  let final :=
    deleteBookmark user i deleteError refetch (λ s, s) (λ s, s) s in
  error final = error s ∧
  loading final = loading s ∧
  urlInput final = urlInput s ∧
  titleInput final = titleInput s ∧
  newIds final = newIds s ∧
  timers final = timers s ∧
  now final = now s ∧
  realtimeStatus final = realtimeStatus s.
Proof.
  unfold deleteBookmark, deleteBookmark_afterDelete,
    deleteBookmark_afterRefetch.
  destruct deleteError as [e|]; [destruct (data refetch)|]; by repeat split.
Qed.

Lemma fire_deleting (ready : list Timer) (s : State) :
  deleting (fire ready s) = deleting s.
Proof.
  unfold fire. revert s. induction ready as [|t ready IH]; intros s; simpl.
  - reflexivity.
  - by rewrite IH.
Qed.

Lemma handleAll_keeps_deleting (user : User) (es : list Event) (s : State) :
  Forall (λ e, ∀ j, e ≠ UserDelete j) es →
  deleting (handleAll user es s) = deleting s.
Proof.
  unfold handleAll. revert s.
  induction es as [|e es IH]; intros s Hes; simpl; [reflexivity|].
  apply Forall_cons in Hes as [He Hes]. rewrite (IH _ Hes).
  destruct e as [row|incoming|deleted|j|ms]; simpl.
  - reflexivity.
  - unfold onInsert. by destruct (negb _).
  - reflexivity.
  - by destruct (He j).
  - unfold elapse. by rewrite fire_deleting.
Qed.

(** X13. The controls while a request is in flight. From the start of a
    [deleteBookmark] call for a non-empty identifier every delete button is
    disabled, and stays so through any optimistic add, notification and
    timer expiry handled meanwhile; they are enabled again when the call has
    finished. The add button and the inputs are disabled while an insert
    request is awaited and enabled again once [addBookmark] has resumed,
    whatever the answer. *)
Theorem controls_disabled_while_in_flight
    (user : User) (parsesAsURL : string → bool) (i : string) (s : State)
    (deleteError : option string) (refetch : Response (list Bookmark))
    (during1 during2 : State → State) (response : Response Bookmark) :
  i ≠ "" →
  deleteDisabled (snd (deleteBookmark_begin user i s)) = true ∧
  (∀ es, Forall (λ e, ∀ j, e ≠ UserDelete j) es →
     deleteDisabled (handleAll user es (snd (deleteBookmark_begin user i s)))
     = true) ∧
  deleteDisabled
    (deleteBookmark user i deleteError refetch during1 during2 s) = false ∧
  (∀ request s', addBookmark_begin user parsesAsURL s = AddAwaiting request s' →
     addDisabled s' = true) ∧
  addDisabled (addBookmark_resume response s) = false.
Proof.
  intros Hi.
  assert (Hbegin : deleteDisabled (snd (deleteBookmark_begin user i s)) = true).
  { simpl. unfold deleteDisabled. simpl.
    destruct i; [contradiction|reflexivity]. }
  split; [exact Hbegin|]. split; [|split; [|split]].
  - intros es Hes. unfold deleteDisabled in *.
    by rewrite (handleAll_keeps_deleting user es _ Hes).
  - unfold deleteBookmark, deleteBookmark_afterDelete.
    destruct deleteError; reflexivity.
  - intros request s' Hadd. unfold addBookmark_begin in Hadd.
    destruct (_ || _); [discriminate|].
    destruct (negb _); [discriminate|].
    by injection Hadd as _ <-.
  - reflexivity.
Qed.

Lemma controls_disabled_while_in_flight_witness :
  "a1" ≠ "" ∧
  deleteDisabled (snd (deleteBookmark_begin me "a1" (mount [a1; a2]))) = true.
Proof.
  assert (H : "a1" ≠ "") by discriminate.
  split; [exact H|].
  exact (proj1 (controls_disabled_while_in_flight me (λ _, true) "a1"
                  (mount [a1; a2]) None {| data := None; failure := None |}
                  (λ s, s) (λ s, s) {| data := None; failure := None |} H)).
Defined.

(** ** The snapshot and the list *)

Lemma owned_by_NoDup (owner : string) (table : list Row) :
  NoDup ((λ r, id (fields r)) <$> table) → NoDup (ids (owned_by owner table)).
Proof.
  intros Hnd. unfold ids, owned_by. rewrite <- list_fmap_compose.
  eapply sublist_NoDup; [exact Hnd|]. apply fmap_sublist, sublist_filter.
Qed.

Lemma recordStore_select_NoDup (instant : string → N) (available : bool)
    (table : list Row) (user : User) :
  NoDup ((λ r, id (fields r)) <$> table) →
  NoDup (ids (default [] (data (recordStore_select instant available table user)))).
Proof.
  intros Hnd. destruct available; simpl; [|apply NoDup_nil_2].
  unfold ids. rewrite merge_sort_Permutation. by apply owned_by_NoDup.
Qed.

(** X14. From the page to the list. When no two rows of the store have the
    same identifier, the list the loader hands to the component has no two
    records of one identifier, whether the query answered or failed softly,
    and neither has the list after any sequence of optimistic adds,
    notifications, user deletes and timer expiries that follows. *)
Theorem snapshot_list_has_unique_identifiers
    (instant : string → N) (available : bool) (table : list Row)
    (user : User) (rows : list Bookmark) (es : list Event) :
  NoDup ((λ r, id (fields r)) <$> table) →
  DashboardContent (Some user) (recordStore_select instant available table)
  = Rendered rows user →
  NoDup (ids rows) ∧
  NoDup (ids (bookmarks (handleAll user es (mount rows)))).
Proof.
  intros Hnd Hpage. injection Hpage as <-.
  assert (Hrows : NoDup (ids (default []
            (data (recordStore_select instant available table user))))).
  { by apply recordStore_select_NoDup. }
  split; [exact Hrows|]. by apply handleAll_NoDup.
Qed.

Lemma snapshot_list_has_unique_identifiers_witness :
  NoDup ((λ r, id (fields r)) <$> [mine a2; mine a1]) ∧
  DashboardContent (Some me)
    (recordStore_select sample_instant true [mine a2; mine a1])
  = Rendered [a1; a2] me ∧
  NoDup (ids (bookmarks
    (handleAll me [InsertNotification (mine a1); UserDelete "a2"]
       (mount [a1; a2])))).
Proof.
  assert (H : NoDup ((λ r, id (fields r)) <$> [mine a2; mine a1])).
  { apply (bool_decide_unpack _). vm_compute. exact I. }
  assert (Hpage : DashboardContent (Some me)
                    (recordStore_select sample_instant true [mine a2; mine a1])
                  = Rendered [a1; a2] me).
  { vm_compute. reflexivity. }
  split; [exact H|]. split; [exact Hpage|].
  exact (proj2 (snapshot_list_has_unique_identifiers sample_instant true
                  [mine a2; mine a1] me [a1; a2]
                  [InsertNotification (mine a1); UserDelete "a2"] H Hpage)).
Defined.

(** X15. The rollback gives what a page load gives. After a failed delete
    request, when the rollback query is answered by the store, the list is
    the list the loader would hand over for the same store, whatever the
    list was and whatever happened to it meanwhile: the records of the
    session's user, newest first, and without two records of one identifier
    when the rows of the store have distinct identifiers. *)
Theorem rollback_restores_the_snapshot
    (instant : string → N) (table : list Row) (user : User)
    (rows : list Bookmark) (i deleteError : string)
    (during1 during2 : State → State) (s : State) :
  DashboardContent (Some user) (recordStore_select instant true table)
  = Rendered rows user →
  let final :=
    deleteBookmark user i (Some deleteError)
      (recordStore_select instant true table user) during1 during2 s in
  bookmarks final = rows ∧
  bookmarks final ≡ₚ owned_by (uid user) table ∧
  StronglySorted (newer_first instant) (bookmarks final) ∧
  (NoDup ((λ r, id (fields r)) <$> table) → NoDup (ids (bookmarks final))).
Proof.
  intros Hpage final. injection Hpage as <-.
  assert (Hfinal : bookmarks final
                   = merge_sort (newer_first instant) (owned_by (uid user) table)).
  { reflexivity. }
  rewrite Hfinal. split; [reflexivity|].
  split; [apply merge_sort_Permutation|].
  split; [apply StronglySorted_merge_sort; apply _|].
  intros Hnd. by apply (recordStore_select_NoDup instant true table user).
Qed.

Lemma rollback_restores_the_snapshot_witness :
  DashboardContent (Some me) (recordStore_select sample_instant true sample_table)
  = Rendered [a1; a2] me ∧
  bookmarks
    (deleteBookmark me "a1" (Some "delete failed")
       (recordStore_select sample_instant true sample_table me)
       (λ s, s) (λ s, s) (mount [a1; a2]))
  = [a1; a2].
Proof.
  assert (Hpage : DashboardContent (Some me)
                    (recordStore_select sample_instant true sample_table)
                  = Rendered [a1; a2] me).
  { vm_compute. reflexivity. }
  split; [exact Hpage|].
  exact (proj1 (rollback_restores_the_snapshot sample_instant sample_table me
                  [a1; a2] "a1" "delete failed" (λ s, s) (λ s, s)
                  (mount [a1; a2]) Hpage)).
Defined.

(** ** Route gating *)

Lemma setAll_app (l1 l2 : list CookieToSet) (st : NextRequest * NextResponse) :
  setAll (l1 ++ l2) st = setAll l2 (setAll l1 st).
Proof. unfold setAll. apply foldl_app. Qed.

Lemma setAll_calls (refreshes : list (list CookieToSet))
    (st : NextRequest * NextResponse) :
  foldl (λ acc cookiesToSet, setAll cookiesToSet acc) st refreshes
  = setAll (mjoin refreshes) st.
Proof.
  revert st. induction refreshes as [|l rest IH]; intros st; simpl.
  - reflexivity.
  - by rewrite IH, setAll_app.
Qed.

Lemma setAll_keeps (l : list CookieToSet) (st : NextRequest * NextResponse) :
  pathname (fst (setAll l st)) = pathname (fst st) ∧
  kind (snd (setAll l st)) = kind (snd st).
Proof.
  unfold setAll. revert st. induction l as [|c l IH]; intros st; simpl.
  - by split.
  - destruct (IH
      ({| pathname := pathname (fst st);
          cookies := <[name c := value c]> (cookies (fst st)) |},
       {| kind := kind (snd st);
          responseCookies :=
            <[name c := (value c, options c)]> (responseCookies (snd st)) |}))
      as [-> ->].
    by split.
Qed.

(** The last cookie of the name [n] in [l] decides what the two jars hold
    for [n]. *)
Lemma setAll_lookup (l : list CookieToSet) (st : NextRequest * NextResponse)
    (n : string) :
  cookies (fst (setAll l st)) !! n
  = match last (filter (λ c, name c = n) l) with
    | Some c => Some (value c)
    | None => cookies (fst st) !! n
    end ∧
  responseCookies (snd (setAll l st)) !! n
  = match last (filter (λ c, name c = n) l) with
    | Some c => Some (value c, options c)
    | None => responseCookies (snd st) !! n
    end.
Proof.
  induction l as [|c l IH] using rev_ind.
  - by split.
  - rewrite setAll_app, filter_app. destruct IH as [IHreq IHresp].
    unfold setAll at 1 3. simpl foldl. simpl fst. simpl snd. simpl cookies.
    simpl responseCookies. rewrite filter_cons, filter_nil.
    destruct (decide (name c = n)) as [Heq|Hne].
    + rewrite last_snoc, Heq, !lookup_insert_eq. by split.
    + rewrite app_nil_r, !lookup_insert_ne by exact Hne. by split.
Qed.

Lemma middleware_kind (request : NextRequest)
    (refreshes : list (list CookieToSet)) (user : option User) :
  kind (snd (middleware request refreshes user))
  = match user with
    | None => if String.prefix "/dashboard" (pathname request)
              then Redirect "/" else Next
    | Some _ => Next
    end.
Proof.
  unfold middleware. rewrite setAll_calls.
  destruct (setAll_keeps (mjoin refreshes)
              (request, {| kind := Next; responseCookies := ∅ |}))
    as [Hpath Hkind].
  rewrite Hpath. simpl fst. destruct user as [u|]; [exact Hkind|].
  destruct (String.prefix "/dashboard" (pathname request));
    [reflexivity | exact Hkind].
Qed.

(** X16. The gate. The middleware redirects to "/" exactly the requests
    without a user whose path starts with "/dashboard", and lets every
    other request through; the redirect carries none of the cookies written
    while the session was refreshed. With the same answer about the user,
    the page redirects to "/" whenever the middleware does, and renders the
    component for every request for a dashboard path that the middleware
    lets through. *)
Theorem middleware_gates_the_dashboard
    (request : NextRequest) (refreshes : list (list CookieToSet))
    (user : option User) (select : User → Response (list Bookmark)) :
  let response := snd (middleware request refreshes user) in
  (kind response = Redirect "/" ↔
   user = None ∧ String.prefix "/dashboard" (pathname request) = true) ∧
  (kind response ≠ Redirect "/" → kind response = Next) ∧
  (kind response = Redirect "/" →
   responseCookies response = ∅ ∧
   DashboardContent user select = Redirected "/") ∧
  (kind response = Next →
   String.prefix "/dashboard" (pathname request) = true →
   ∃ u, user = Some u ∧
        DashboardContent user select = Rendered (default [] (data (select u))) u).
Proof.
  intros response. subst response.
  pose proof (middleware_kind request refreshes user) as Hkind.
  split; [|split; [|split]].
  - rewrite Hkind. destruct user as [u|];
      [|destruct (String.prefix "/dashboard" (pathname request))];
      split; try discriminate; try (intros [? ?]; discriminate); by split.
  - rewrite Hkind. destruct user as [u|];
      [|destruct (String.prefix "/dashboard" (pathname request))];
      try reflexivity. intros Hne. by destruct Hne.
  - intros Hredirect. rewrite Hkind in Hredirect.
    destruct user as [u|]; [discriminate|].
    split; [|reflexivity].
    unfold middleware. rewrite setAll_calls.
    destruct (setAll_keeps (mjoin refreshes)
                (request, {| kind := Next; responseCookies := ∅ |}))
      as [Hpath _].
    rewrite Hpath. simpl fst.
    destruct (String.prefix "/dashboard" (pathname request));
      [reflexivity | discriminate].
  - intros Hnext Hprefix. rewrite Hkind, Hprefix in Hnext.
    destruct user as [u|]; [|discriminate]. exists u. by split.
Qed.

Lemma middleware_gates_the_dashboard_witness :
  let request := {| pathname := "/dashboard/settings"; cookies := ∅ |} in
  let refreshes :=
    [[ {| name := "sb-token"; value := ""; options := "Max-Age=0" |} ]] in
  kind (snd (middleware request refreshes None)) = Redirect "/" ∧
  responseCookies (snd (middleware request refreshes None)) = ∅.
Proof.
  intros request refreshes.
  destruct (middleware_gates_the_dashboard request refreshes None
              (λ _, {| data := None; failure := None |}))
    as (Hiff & _ & Hredirect & _).
  assert (H : kind (snd (middleware request refreshes None)) = Redirect "/").
  { apply Hiff. by split. }
  split; [exact H|]. exact (proj1 (Hredirect H)).
Defined.

(** X17. The cookies of a refreshed session. For every cookie name, the
    request as the middleware leaves it holds the value written last for
    that name by [setAll], or its former value when none was written; a
    response that is not a redirect holds that same value and its options,
    and no cookie for a name that was never written. *)
Theorem middleware_cookies_last_write_wins
    (request : NextRequest) (refreshes : list (list CookieToSet))
    (user : option User) (n : string) :
  let result := middleware request refreshes user in
  let written := last (filter (λ c, name c = n) (mjoin refreshes)) in
  cookies (fst result) !! n
  = match written with
    | Some c => Some (value c)
    | None => cookies request !! n
    end ∧
  (kind (snd result) = Next →
   responseCookies (snd result) !! n
   = (λ c, (value c, options c)) <$> written) ∧
  (kind (snd result) = Next → is_Some written →
   fst <$> responseCookies (snd result) !! n = cookies (fst result) !! n).
Proof.
  intros result written. subst result written.
  destruct (setAll_lookup (mjoin refreshes)
              (request, {| kind := Next; responseCookies := ∅ |}) n)
    as [Hreq Hresp].
  simpl in Hreq, Hresp. rewrite lookup_empty in Hresp.
  assert (Hfst : fst (middleware request refreshes user)
                 = fst (setAll (mjoin refreshes)
                          (request, {| kind := Next; responseCookies := ∅ |}))).
  { unfold middleware. rewrite setAll_calls.
    destruct user; [reflexivity|]. by destruct (String.prefix _ _). }
  assert (Hsnd : kind (snd (middleware request refreshes user)) = Next →
                 snd (middleware request refreshes user)
                 = snd (setAll (mjoin refreshes)
                          (request, {| kind := Next; responseCookies := ∅ |}))).
  { unfold middleware. rewrite setAll_calls.
    destruct user; [reflexivity|].
    destruct (String.prefix _ _); [discriminate | reflexivity]. }
  rewrite Hfst. split; [exact Hreq|]. split.
  - intros Hnext. rewrite (Hsnd Hnext), Hresp.
    by destruct (last _).
  - intros Hnext [c Hc]. rewrite (Hsnd Hnext), Hresp, Hreq, Hc. reflexivity.
Qed.

(** ** The subscription *)

Lemma removeChannel_one (channel x : Channel) (c : Client) :
  channels c = [x] →
  channels (removeChannel channel c) = [] ∨
  channels (removeChannel channel c) = [x].
Proof.
  intros Hc. unfold removeChannel. simpl. rewrite Hc, filter_cons, filter_nil.
  destruct (decide _); [by right | by left].
Qed.

Lemma lifecycle_one_channel (user : User) (e : Lifecycle) (r : Refs) :
  (channels (supabase r) = [] ∨
   ∃ x, channels (supabase r) = [x] ∧ channelRef r = Some x) →
  channels (supabase (lifecycle user e r)) = [] ∨
  ∃ x, channels (supabase (lifecycle user e r)) = [x] ∧
       channelRef (lifecycle user e r) = Some x.
Proof.
  intros Hr. destruct e as [dateNow|channel]; simpl.
  - right. unfold subscriptionEffect.
    assert (Hnone :
      channels (match channelRef r with
                | Some previous => removeChannel previous (supabase r)
                | None => supabase r
                end) = []).
    { destruct Hr as [Hr|(x & Hx & Href)].
      - destruct (channelRef r); [|exact Hr].
        unfold removeChannel. simpl. by rewrite Hr.
      - rewrite Href. unfold removeChannel. simpl.
        rewrite Hx, filter_cons, filter_nil.
        rewrite decide_False; [reflexivity|]. intros Hne. by apply Hne. }
    simpl. rewrite Hnone. simpl. by eexists.
  - destruct Hr as [Hr|(x & Hx & Href)].
    + left. unfold removeChannel. simpl. by rewrite Hr.
    + destruct (removeChannel_one channel x (supabase r) Hx) as [H|H].
      * by left.
      * right. exists x. by split.
Qed.

Lemma lifecycleAll_one_channel (user : User) (es : list Lifecycle) (r : Refs) :
  (channels (supabase r) = [] ∨
   ∃ x, channels (supabase r) = [x] ∧ channelRef r = Some x) →
  channels (supabase (lifecycleAll user es r)) = [] ∨
  ∃ x, channels (supabase (lifecycleAll user es r)) = [x] ∧
       channelRef (lifecycleAll user es r) = Some x.
Proof.
  unfold lifecycleAll. revert r.
  induction es as [|e es IH]; intros r Hr; simpl; [exact Hr|].
  apply IH, lifecycle_one_channel, Hr.
Qed.

(** X18. At most one live subscription. Starting from a fresh client and an
    empty [channelRef], after any sequence of runs of the effect and of
    calls of cleanup functions, in any order, the client has at most one
    live channel, and a live channel is the one [channelRef] holds. *)
Theorem at_most_one_live_channel (user : User) (es : list Lifecycle) :
  let r := lifecycleAll user es
             {| supabase := createClient; channelRef := None |} in
  (length (channels (supabase r)) ≤ 1)%nat ∧
  ∀ channel, channel ∈ channels (supabase r) → channelRef r = Some channel.
Proof.
  intros r.
  assert (Hr : channels (supabase r) = [] ∨
               ∃ x, channels (supabase r) = [x] ∧ channelRef r = Some x).
  { subst r. apply lifecycleAll_one_channel. by left. }
  destruct Hr as [Hr|(x & Hx & Href)].
  - rewrite Hr. split; [simpl; lia|]. intros channel Hin. inversion Hin.
  - rewrite Hx. split; [simpl; lia|].
    intros channel Hin. apply list_elem_of_singleton in Hin as ->. exact Href.
Qed.

(** X19. Mount, unmount and sign-out. In any state reached as above, a run
    of the effect leaves exactly one live channel, the one it created, named
    after the user and the instant, and held by [channelRef]; the cleanup
    function of that run leaves no live channel, and so does [signOut],
    which sends the window to "/". *)
Theorem effect_then_cleanup_leaves_no_channel
    (user : User) (es : list Lifecycle) (dateNow : N) :
  let r := lifecycleAll user es
             {| supabase := createClient; channelRef := None |} in
  let channel := fst (subscriptionEffect user dateNow r) in
  let mounted := snd (subscriptionEffect user dateNow r) in
  channels (supabase mounted) = [channel] ∧
  topic channel = channelName user dateNow ∧
  channelRef mounted = Some channel ∧
  channels (supabase (subscriptionCleanup channel mounted)) = [] ∧
  channels (supabase (fst (signOut mounted))) = [] ∧
  snd (signOut mounted) = "/".
Proof.
  intros r channel mounted.
  assert (Hr : channels (supabase r) = [] ∨
               ∃ x, channels (supabase r) = [x] ∧ channelRef r = Some x).
  { subst r. apply lifecycleAll_one_channel. by left. }
  assert (Hm : channels (supabase mounted) = [] ∨
               ∃ x, channels (supabase mounted) = [x] ∧
                    channelRef mounted = Some x).
  { apply (lifecycle_one_channel user (EffectRuns dateNow) r Hr). }
  assert (Hchannel : channelRef mounted = Some channel).
  { subst mounted channel. unfold subscriptionEffect.
    by destruct (channel_subscribe _ _). }
  assert (Hlast : channel ∈ channels (supabase mounted)).
  { subst mounted channel. unfold subscriptionEffect. simpl.
    apply elem_of_app. right. apply list_elem_of_here. }
  assert (Hone : channels (supabase mounted) = [channel]).
  { destruct Hm as [Hm|(x & Hx & _)].
    - rewrite Hm in Hlast. inversion Hlast.
    - rewrite Hx in Hlast. apply list_elem_of_singleton in Hlast as ->.
      exact Hx. }
  assert (Hgone : filter (λ x, object_id x ≠ object_id channel)
                    (channels (supabase mounted)) = []).
  { rewrite Hone, filter_cons, filter_nil.
    rewrite decide_False; [reflexivity|]. intros Hne. by apply Hne. }
  split; [exact Hone|]. split.
  { subst channel. unfold subscriptionEffect. reflexivity. }
  split; [exact Hchannel|]. split; [exact Hgone|]. split; [|reflexivity].
  unfold signOut. rewrite Hchannel. exact Hgone.
Qed.

(** X20. For one user, the name of the channel tells the instant of the
    run of the effect: two runs at different instants never give their
    channels the same name. *)
Theorem channelName_tells_the_instant (user : User) (t1 t2 : N) :
  t1 ≠ t2 → channelName user t1 ≠ channelName user t2.
Proof.
  intros Hne Heq. apply Hne. unfold channelName in Heq.
  apply (inj (String.app "bookmarks:")) in Heq.
  apply (inj (String.app (uid user))) in Heq.
  apply (inj (String.app ":")) in Heq.
  by apply (inj pretty) in Heq.
Qed.

Lemma channelName_tells_the_instant_witness :
  (1700000000000 ≠ 1700000000001) ∧
  channelName me 1700000000000 ≠ channelName me 1700000000001.
Proof.
  assert (H : 1700000000000 ≠ 1700000000001) by discriminate.
  split; [exact H|].
  exact (channelName_tells_the_instant me _ _ H).
Defined.

(** ** A removal is not remembered *)

(** X21. An insert notification of the user's own that arrives after its
    record was removed from the list, by a delete of the user or by a
    delete notification, puts the record back at the head of the list and
    highlights it: nothing in the state records that an identifier was
    removed. *)
Theorem insert_after_removal_puts_the_record_back
    (user : User) (incoming : Row) (s : State) :
  user_id incoming = uid user →
  let removed := removeFromList (id (fields incoming)) s in
  bookmarks (onInsert user incoming removed)
  = fields incoming :: bookmarks removed ∧
  bookmarks (onInsert user incoming (snd (deleteBookmark_begin user
                                            (id (fields incoming)) s)))
  = fields incoming :: bookmarks removed ∧
  isNew (onInsert user incoming removed) (fields incoming) = true.
Proof.
  intros Hown removed.
  assert (Hout : id (fields incoming) ∉ ids (bookmarks removed)).
  { apply not_in_filter_ids. }
  unfold onInsert. rewrite Hown, String.eqb_refl. simpl negb. cbv iota.
  split; [by apply addToList_absent|]. split.
  - by apply (addToList_absent (fields incoming)
                (setDeleting (Some (id (fields incoming))) removed)).
  - unfold isNew. apply bool_decide_eq_true. simpl.
    apply elem_of_union. right. by apply elem_of_singleton.
Qed.

Lemma insert_after_removal_puts_the_record_back_witness :
  user_id (mine a1) = uid me ∧
  bookmarks (onInsert me (mine a1) (removeFromList "a1" (mount [a1; a2])))
  = [a1; a2].
Proof.
  assert (H : user_id (mine a1) = uid me) by reflexivity.
  split; [exact H|].
  exact (proj1 (insert_after_removal_puts_the_record_back me (mine a1)
                  (mount [a1; a2]) H)).
Defined.
